(** * svg2icon: the ICO and ICNS container encoders

    A shallow embedding of [internal/ico/ico.go] and [internal/icns/icns.go]
    and the layout properties of the buffers they serialise.

    Conventions.  A Go [int] is a [Z] (the lengths and sizes met here are far
    from the 64-bit limit); a conversion to [uint8], [uint16] or [uint32] is
    the remainder modulo [2^8], [2^16] or [2^32], and [uint32] addition wraps.
    A [[]byte] is a [list byte]; a [bytes.Buffer] is the list of the bytes
    written so far.  The rasterizer [png.SvgToPng] and [os.WriteFile] are
    parameters of the encoders. *)

From Stdlib Require Import ZArith Lia Bool String List.
From coqutil Require Import Byte Word.LittleEndianList.
Import ListNotations.
Local Open Scope Z_scope.

(** A byte is a [Byte.byte] of the standard library. *)
Abbreviation byte := Init.Byte.byte.

(** ** The Go primitives the encoders use *)

Module Go.

(** [len(s)] as an [int]. *)
Definition len {A : Type} (s : list A) : Z := Z.of_nat (List.length s).

Definition uint8 (z : Z) : Z := z mod 2 ^ 8.
Definition uint16 (z : Z) : Z := z mod 2 ^ 16.
Definition uint32 (z : Z) : Z := z mod 2 ^ 32.

(** [bytes.Buffer]: [Write] and [WriteString] append and cannot fail. *)
Definition Buffer : Type := list byte.

Definition Write (buffer : Buffer) (p : list byte) : Buffer := buffer ++ p.

Definition WriteString (buffer : Buffer) (s : string) : Buffer :=
  buffer ++ list_byte_of_string s.

(** [copy(dst[:], s)] into a zeroed [[4]byte]: the first [min 4 (len s)]
    bytes of [s], the rest left at zero. *)
Definition copy4 (s : string) : list byte :=
  firstn 4 (list_byte_of_string s ++ repeat Byte.x00 4).

(** [binary.Write(buffer, binary.LittleEndian, v)] for a [v] of 1, 2 or 4
    bytes, and [binary.LittleEndian.Uint16/Uint32] to read one back. *)
Module LittleEndian.
Definition Write8 (buffer : Buffer) (v : Z) : Buffer := Write buffer (le_split 1 v).
Definition Write16 (buffer : Buffer) (v : Z) : Buffer := Write buffer (le_split 2 v).
Definition Write32 (buffer : Buffer) (v : Z) : Buffer := Write buffer (le_split 4 v).
Definition Uint16 (b : list byte) : Z := le_combine (firstn 2 b).
Definition Uint32 (b : list byte) : Z := le_combine (firstn 4 b).
End LittleEndian.

(** [binary.Write(buffer, binary.BigEndian, v)] for a [uint32], which on a
    [bytes.Buffer] returns a nil error, and [binary.BigEndian.Uint32]. *)
Module BigEndian.
Definition Write32 (buffer : Buffer) (v : Z) : Buffer :=
  Write buffer (rev (le_split 4 v)).
Definition Uint32 (b : list byte) : Z := le_combine (rev (firstn 4 b)).
End BigEndian.

(** What a call of [CreateIco] or [CreateIcns] comes to: it returns its
    [error] (or nil) and leaves a file system behind, or it panics. *)
Inductive outcome (error FS : Type) : Type :=
| Returned (err : option error) (fs : FS)
| Panicked.
Arguments Returned {error FS} err fs.
Arguments Panicked {error FS}.

End Go.

(** ** internal/ico/ico.go *)

Module Ico.
Import Go.

(** The sizes used in Windows for .ico files. *)
Definition IconSizes : list Z := [16; 24; 32; 48; 64; 128; 256].

Record ICONDIREntry : Type := {
  Width : Z;        (* uint8 *)
  Height : Z;       (* uint8 *)
  ColorCount : Z;   (* uint8 *)
  Reserved : Z;     (* uint8 *)
  Planes : Z;       (* uint16 *)
  BitCount : Z;     (* uint16 *)
  BytesInRes : Z;   (* uint32 *)
  ImageOffset : Z   (* uint32 *)
}.

Section Encoder.
Context {error FS : Type}.
Variable SvgToPng : string -> Z -> error + list byte.
Variable WriteFile : string -> list byte -> FS -> option error * FS.

(** Lines 45-51: one rasterization per size, the first error returned. *)
Fixpoint rasterize (svgPath : string) (sizes : list Z)
    (imageData : list (list byte)) : error + list (list byte) :=
  match sizes with
  | [] => inr imageData
  | currentSize :: rest =>
      match SvgToPng svgPath currentSize with
      | inl err => inl err
      | inr pngData => rasterize svgPath rest (imageData ++ [pngData])
      end
  end.

(** Lines 60-77: the directory entry of one size. *)
Definition makeEntry (currentSize : Z) (pngData : list byte)
    (currentOffset : Z) : ICONDIREntry :=
  let width := uint8 currentSize in
  let height := uint8 currentSize in
  let '(width, height) :=
    if currentSize =? 256 then (0, 0) else (width, height) in
  {| Width := width;
     Height := height;
     ColorCount := 0;
     Reserved := 0;
     Planes := 1;
     BitCount := 32;
     BytesInRes := uint32 (len pngData);
     ImageOffset := currentOffset |}.

(** Lines 59-80: the loop over [IconSizes] from index [i] on; [None] is
    the panic of [imageData[i]] out of range. *)
Fixpoint directory (imageData : list (list byte)) (sizes : list Z)
    (i : nat) (currentOffset : Z) (entries : list ICONDIREntry)
    : option (list ICONDIREntry) :=
  match sizes with
  | [] => Some entries
  | currentSize :: rest =>
      match nth_error imageData i with
      | None => None
      | Some pngData =>
          directory imageData rest (S i)
            (uint32 (currentOffset + uint32 (len pngData)))
            (entries ++ [makeEntry currentSize pngData currentOffset])
      end
  end.

(** Lines 92-99. *)
Definition writeEntry (buffer : Buffer) (currentEntry : ICONDIREntry) : Buffer :=
  let buffer := LittleEndian.Write8 buffer (Width currentEntry) in
  let buffer := LittleEndian.Write8 buffer (Height currentEntry) in
  let buffer := LittleEndian.Write8 buffer (ColorCount currentEntry) in
  let buffer := LittleEndian.Write8 buffer (Reserved currentEntry) in
  let buffer := LittleEndian.Write16 buffer (Planes currentEntry) in
  let buffer := LittleEndian.Write16 buffer (BitCount currentEntry) in
  let buffer := LittleEndian.Write32 buffer (BytesInRes currentEntry) in
  LittleEndian.Write32 buffer (ImageOffset currentEntry).

(** Lines 82-105: header, directory, payloads. *)
Definition serialize (sizes : list Z) (entries : list ICONDIREntry)
    (imageData : list (list byte)) : Buffer :=
  let buffer : Buffer := [] in
  let buffer := LittleEndian.Write16 buffer (uint16 0) in
  let buffer := LittleEndian.Write16 buffer (uint16 1) in
  let buffer := LittleEndian.Write16 buffer (uint16 (len sizes)) in
  let buffer := fold_left writeEntry entries buffer in
  fold_left Write imageData buffer.

(** Lines 53-105 on the payloads of a finished first loop. *)
Definition entriesOf (sizes : list Z) (imageData : list (list byte))
    : option (list ICONDIREntry) :=
  let headerSize := 6 in
  let entriesSize := len sizes * 16 in
  let currentOffset := uint32 (headerSize + entriesSize) in
  directory imageData sizes 0 currentOffset [].

Definition encode (sizes : list Z) (imageData : list (list byte))
    : option Buffer :=
  match entriesOf sizes imageData with
  | None => None
  | Some entries => Some (serialize sizes entries imageData)
  end.

(** [CreateIco] with the package variable [IconSizes] holding [sizes]. *)
Definition CreateIcoWith (sizes : list Z) (svgPath outputPath : string)
    (fs : FS) : outcome error FS :=
  match rasterize svgPath sizes [] with
  | inl err => Returned (Some err) fs
  | inr imageData =>
      match encode sizes imageData with
      | None => Panicked
      | Some buffer =>
          let '(err, fs') := WriteFile outputPath buffer fs in
          Returned err fs'
      end
  end.

Definition CreateIco : string -> string -> FS -> outcome error FS :=
  CreateIcoWith IconSizes.

End Encoder.
End Ico.

(** ** internal/icns/icns.go *)

Module Icns.
Import Go.

(** An ICNS icon type with its OSType code and size. *)
Module IconType.
Record t : Type := { OSType : string; Size : Z; IsRetina : bool }.
End IconType.

(** A single icon entry in the ICNS file. *)
Module IconEntry.
Record t : Type := {
  OSType : list byte;  (* [4]byte *)
  Length : Z;          (* uint32 *)
  Data : list byte
}.
End IconEntry.

Definition iconType (code : string) (size : Z) : IconType.t :=
  {| IconType.OSType := code; IconType.Size := size; IconType.IsRetina := false |}.

(** The set of icons to be included in the .icns file. *)
Definition StandardIconTypes : list IconType.t :=
  [ iconType "icp4" 16; iconType "icp5" 32; iconType "icp6" 64;
    iconType "ic07" 128; iconType "ic08" 256; iconType "ic09" 512;
    iconType "ic10" 1024;
    iconType "ic11" 32; iconType "ic12" 64; iconType "ic13" 256;
    iconType "ic14" 512 ].

Section Encoder.
Context {error FS : Type}.
Variable SvgToPng : string -> Z -> error + list byte.
Variable WriteFile : string -> list byte -> FS -> option error * FS.

(** Lines 67-74: the entry of one rasterized icon type. *)
Definition makeEntry (iconType : IconType.t) (pngData : list byte)
    : IconEntry.t :=
  let osTypeBytes := copy4 (IconType.OSType iconType) in
  {| IconEntry.OSType := osTypeBytes;
     IconEntry.Length := uint32 (len pngData + 8);
     IconEntry.Data := pngData |}.

(** Lines 61-76: rasterize and build the entries, the first error
    returned. *)
Fixpoint buildEntries (svgPath : string) (types : list IconType.t)
    (entries : list IconEntry.t) : error + list IconEntry.t :=
  match types with
  | [] => inr entries
  | iconType :: rest =>
      match SvgToPng svgPath (IconType.Size iconType) with
      | inl err => inl err
      | inr pngData =>
          buildEntries svgPath rest (entries ++ [makeEntry iconType pngData])
      end
  end.

(** Lines 80-83. *)
Definition totalSizeOf (entries : list IconEntry.t) : Z :=
  fold_left (fun totalSize entry => uint32 (totalSize + IconEntry.Length entry))
    entries (uint32 8).

(** Lines 97-102. *)
Definition writeEntry (buffer : Buffer) (entry : IconEntry.t) : Buffer :=
  let buffer := Write buffer (IconEntry.OSType entry) in
  let buffer := BigEndian.Write32 buffer (IconEntry.Length entry) in
  Write buffer (IconEntry.Data entry).

(** Lines 78-103: total size, header, entries. *)
Definition serialize (entries : list IconEntry.t) : Buffer :=
  let totalSize := totalSizeOf entries in
  let buffer : Buffer := [] in
  let buffer := WriteString buffer "icns" in
  let buffer := BigEndian.Write32 buffer totalSize in
  fold_left writeEntry entries buffer.

(** [CreateIcns] with the package variable [StandardIconTypes] holding
    [types]. *)
Definition CreateIcnsWith (types : list IconType.t)
    (svgPath outputPath : string) (fs : FS) : outcome error FS :=
  match buildEntries svgPath types [] with
  | inl err => Returned (Some err) fs
  | inr entries =>
      let '(err, fs') := WriteFile outputPath (serialize entries) fs in
      Returned err fs'
  end.

Definition CreateIcns : string -> string -> FS -> outcome error FS :=
  CreateIcnsWith StandardIconTypes.

End Encoder.
End Icns.

(** ** Readers of the two layouts

    The repository only writes the containers.  These readers follow the
    persisted layouts ([6-byte header][16-byte entry]xN[payload]xN with
    little-endian integers and dimension byte 0 meaning 256, and "icns",
    big-endian total size, then (type, big-endian length, payload)xN with
    length = payload length + 8); the round-trip statements are about
    them. *)

Module Reader.
Import Go.

(** The 16 bytes of a directory entry, field by field. *)
Definition parseEntry (b : list byte) : Ico.ICONDIREntry :=
  {| Ico.Width := le_combine (firstn 1 b);
     Ico.Height := le_combine (firstn 1 (skipn 1 b));
     Ico.ColorCount := le_combine (firstn 1 (skipn 2 b));
     Ico.Reserved := le_combine (firstn 1 (skipn 3 b));
     Ico.Planes := LittleEndian.Uint16 (skipn 4 b);
     Ico.BitCount := LittleEndian.Uint16 (skipn 6 b);
     Ico.BytesInRes := LittleEndian.Uint32 (skipn 8 b);
     Ico.ImageOffset := LittleEndian.Uint32 (skipn 12 b) |}.

(** A dimension byte under the 0-means-256 convention. *)
Definition dimension (v : Z) : Z := if v =? 0 then 256 else v.

Record Image : Type := { width : Z; height : Z; payload : list byte }.

Fixpoint readDirectory (file dir : list byte) (count : nat)
    : option (list Image) :=
  match count with
  | O => Some []
  | S n =>
      if len dir <? 16 then None else
      let e := parseEntry (firstn 16 dir) in
      if Ico.ImageOffset e + Ico.BytesInRes e <=? len file then
        match readDirectory file (skipn 16 dir) n with
        | None => None
        | Some images =>
            Some ({| width := dimension (Ico.Width e);
                     height := dimension (Ico.Height e);
                     payload := firstn (Z.to_nat (Ico.BytesInRes e))
                                  (skipn (Z.to_nat (Ico.ImageOffset e)) file) |}
                  :: images)
        end
      else None
  end.

Definition readIco (file : list byte) : option (list Image) :=
  if len file <? 6 then None else
  if (LittleEndian.Uint16 file =? 0) && (LittleEndian.Uint16 (skipn 2 file) =? 1)
  then readDirectory file (skipn 6 file)
         (Z.to_nat (LittleEndian.Uint16 (skipn 4 file)))
  else None.

(** The elements of an ICNS file, scanned sequentially; [fuel] bounds the
    number of elements, each of which takes at least 8 bytes. *)
Fixpoint readElements (fuel : nat) (data : list byte)
    : option (list (list byte * list byte)) :=
  match data with
  | [] => Some []
  | _ :: _ =>
      match fuel with
      | O => None
      | S fuel' =>
          let length := BigEndian.Uint32 (skipn 4 data) in
          if (len data <? 8) || (length <? 8) || (len data <? length) then None
          else
            match readElements fuel' (skipn (Z.to_nat length) data) with
            | None => None
            | Some elements =>
                Some ((firstn 4 data,
                       firstn (Z.to_nat (length - 8)) (skipn 8 data))
                      :: elements)
            end
      end
  end.

Definition readIcns (file : list byte) : option (list (list byte * list byte)) :=
  if len file <? 8 then None else
  if list_eq_dec Byte.byte_eq_dec (firstn 4 file) (list_byte_of_string "icns")
  then
    let totalSize := BigEndian.Uint32 (skipn 4 file) in
    if (totalSize <? 8) || (len file <? totalSize) then None
    else
      let body := firstn (Z.to_nat (totalSize - 8)) (skipn 8 file) in
      readElements (List.length body) body
  else None.

End Reader.

(** ** The vocabulary of the statements *)

Import Go.

(** The sum of the byte lengths of a list of payloads. *)
Definition totalLen (payloads : list (list byte)) : Z :=
  fold_right (fun p acc => len p + acc) 0 payloads.

(** The 16 bytes [Ico.writeEntry] appends for one entry. *)
Definition entryBytes (e : Ico.ICONDIREntry) : list byte :=
  le_split 1 (Ico.Width e) ++ le_split 1 (Ico.Height e)
  ++ le_split 1 (Ico.ColorCount e) ++ le_split 1 (Ico.Reserved e)
  ++ le_split 2 (Ico.Planes e) ++ le_split 2 (Ico.BitCount e)
  ++ le_split 4 (Ico.BytesInRes e) ++ le_split 4 (Ico.ImageOffset e).

(** [payloads] are the rasterizer's results for [sizes], in order. *)
Definition rendered {error : Type} (SvgToPng : string -> Z -> error + list byte)
    (svgPath : string) (sizes : list Z) (payloads : list (list byte)) : Prop :=
  Forall2 (fun size pngData => SvgToPng svgPath size = inr pngData) sizes payloads.

(** The entries the loop appends for [sizes] and their payloads, the running
    offset starting at [currentOffset]. *)
Fixpoint layout (sizes : list Z) (payloads : list (list byte)) (currentOffset : Z)
    : list Ico.ICONDIREntry :=
  match sizes, payloads with
  | currentSize :: sizes', pngData :: payloads' =>
      Ico.makeEntry currentSize pngData currentOffset
      :: layout sizes' payloads' (uint32 (currentOffset + uint32 (len pngData)))
  | _, _ => []
  end.

(** The buffer [CreateIco] hands to [os.WriteFile] once every size has been
    rasterized. *)
Definition icoBuffer (sizes : list Z) (payloads : list (list byte)) : Buffer :=
  Ico.serialize sizes (layout sizes payloads (uint32 (6 + len sizes * 16))) payloads.

(** C1 as the specification words it: entry [i] holds the offset
    [6 + 16*count + (lengths of payloads 0..i-1)] and the length of payload
    [i], as integers. *)
Definition ico_offsets_exact (sizes : list Z) (imageData : list (list byte)) : Prop :=
  exists entries,
    Ico.entriesOf sizes imageData = Some entries /\
    List.length entries = List.length sizes /\
    forall i pngData, nth_error imageData i = Some pngData ->
      exists e, nth_error entries i = Some e /\
        Ico.ImageOffset e = 6 + 16 * len sizes + totalLen (firstn i imageData) /\
        Ico.BytesInRes e = len pngData.

(** C1 with the wrap-around of the [uint32] fields: what they hold for every
    list of payloads. *)
Definition ico_offsets_mod (sizes : list Z) (imageData : list (list byte)) : Prop :=
  exists entries,
    Ico.entriesOf sizes imageData = Some entries /\
    List.length entries = List.length sizes /\
    forall i pngData, nth_error imageData i = Some pngData ->
      exists e, nth_error entries i = Some e /\
        Ico.ImageOffset e
        = (6 + 16 * len sizes + totalLen (firstn i imageData)) mod 2 ^ 32 /\
        Ico.BytesInRes e = len pngData mod 2 ^ 32.

(** A payload of 2^32 bytes, the first length a [uint32] cannot hold. *)
Definition hugePayload : list byte := repeat Byte.x00 (Z.to_nat (2 ^ 32)).

(** [payloads] are the rasterizer's results for the sizes of [types]. *)
Definition renderedTypes {error : Type}
    (SvgToPng : string -> Z -> error + list byte) (svgPath : string)
    (types : list Icns.IconType.t) (payloads : list (list byte)) : Prop :=
  Forall2 (fun iconType pngData =>
             SvgToPng svgPath (Icns.IconType.Size iconType) = inr pngData)
    types payloads.

(** The entries of [types] and their payloads, in table order. *)
Fixpoint entriesFor (types : list Icns.IconType.t) (payloads : list (list byte))
    : list Icns.IconEntry.t :=
  match types, payloads with
  | iconType :: types', pngData :: payloads' =>
      Icns.makeEntry iconType pngData :: entriesFor types' payloads'
  | _, _ => []
  end.

(** The sum of the length fields of the entries. *)
Definition sumLengths (entries : list Icns.IconEntry.t) : Z :=
  fold_right (fun e acc => Icns.IconEntry.Length e + acc) 0 entries.

(** 8 bytes of file header, and 8 bytes of element header before each
    payload. *)
Definition icnsSize (entries : list Icns.IconEntry.t) : Z :=
  8 + fold_right (fun e acc => len (Icns.IconEntry.Data e) + 8 + acc) 0 entries.

(** The bytes [Icns.writeEntry] appends for one entry. *)
Definition elementBytes (e : Icns.IconEntry.t) : list byte :=
  Icns.IconEntry.OSType e ++ rev (le_split 4 (Icns.IconEntry.Length e))
  ++ Icns.IconEntry.Data e.

(** C2 as the specification words it, as integers: every entry's
    length field is its payload's length plus 8, and the total-size field of
    the header is 8 plus the sum of the entries' length fields. *)
Definition icns_lengths_exact (entries : list Icns.IconEntry.t) : Prop :=
  Forall (fun e => Icns.IconEntry.Length e = len (Icns.IconEntry.Data e) + 8) entries /\
  BigEndian.Uint32 (skipn 4 (Icns.serialize entries)) = 8 + sumLengths entries.

(** C2 with the wrap-around of the [uint32] fields: what they hold for every
    list of payloads. *)
Definition icns_lengths_mod (entries : list Icns.IconEntry.t) : Prop :=
  Forall (fun e => Icns.IconEntry.Length e
                   = (len (Icns.IconEntry.Data e) + 8) mod 2 ^ 32) entries /\
  BigEndian.Uint32 (skipn 4 (Icns.serialize entries))
  = (8 + sumLengths entries) mod 2 ^ 32.

(** A rasterizer whose 16-pixel image is [big] and whose other images are
    empty. *)
Definition bigAt16 (big : list byte) (svgPath : string) (pxSize : Z)
    : string + list byte :=
  inr (if pxSize =? 16 then big else []).

(** A rasterizer whose image at [pxSize] pixels is [pxSize] bytes long. *)
Definition sampleRaster (svgPath : string) (pxSize : Z) : string + list byte :=
  inr (repeat Byte.x2a (Z.to_nat pxSize)).

(** The buffer [CreateIcns] hands to [os.WriteFile] once every icon type
    has been rasterized. *)
Definition icnsBuffer (types : list Icns.IconType.t) (payloads : list (list byte))
    : Buffer :=
  Icns.serialize (entriesFor types payloads).

(** The part of C4 the code does not meet: the returned error tells
    which size failed, that is, some reading [sizeOf] of errors gives the
    failing size whatever the rasterizer. *)
Definition error_identifies_size (error FS : Type) : Prop :=
  exists sizeOf : error -> Z,
    forall (SvgToPng : string -> Z -> error + list byte)
           (WriteFile : string -> list byte -> FS -> option error * FS)
           svgPath outputPath fs done size rest cause err fs',
      Ico.IconSizes = done ++ size :: rest ->
      (forall s, In s done -> exists pngData, SvgToPng svgPath s = inr pngData) ->
      SvgToPng svgPath size = inl cause ->
      Ico.CreateIco SvgToPng WriteFile svgPath outputPath fs = Returned (Some err) fs' ->
      sizeOf err = size.

(** The source file cannot be opened: every size fails alike. *)
Definition failOpen (svgPath : string) (pxSize : Z) : string + list byte :=
  inl "open icon.svg: no such file or directory"%string.

(** The source file disappears after the first rasterization. *)
Definition failOpenAfter16 (svgPath : string) (pxSize : Z) : string + list byte :=
  if pxSize =? 16 then inr [Byte.x2a]
  else inl "open icon.svg: no such file or directory"%string.

(** An [os.WriteFile] on a file system that keeps the last file written. *)
Definition writeLast (path : string) (data : list byte)
    (fs : option (string * list byte)) : option string * option (string * list byte) :=
  (None, Some (path, data)).

(** A rasterizer that fails on 32 pixels, the third ICO size and the second
    ICNS icon type. *)
Definition failAt32 (svgPath : string) (pxSize : Z) : string + list byte :=
  if pxSize =? 32 then inl "png: invalid format"%string else inr [Byte.x2a].

(** The four bytes of a [uint32], most significant first. *)
Definition be32 (v : Z) : list byte :=
  [byte.of_Z (Z.shiftr v 24); byte.of_Z (Z.shiftr v 16);
   byte.of_Z (Z.shiftr v 8); byte.of_Z v].

(** One element of the file: type code, big-endian length, payload. *)
Definition icnsElement (tp : Icns.IconType.t * list byte) : list byte :=
  list_byte_of_string (Icns.IconType.OSType (fst tp))
  ++ be32 (uint32 (len (snd tp) + 8)) ++ snd tp.

(** A second run of [sampleRaster] that differs only off the tables. *)
Definition sampleRasterAgain (svgPath : string) (pxSize : Z) : string + list byte :=
  if pxSize =? 17 then inl "unused size"%string
  else inr (repeat Byte.x2a (Z.to_nat pxSize)).

(** C10 for ICNS as the specification words it: the byte length of the
    buffer is the value of its total-size field, which is 8 plus the sum of
    the entries' length fields. *)
Definition icns_size_exact (entries : list Icns.IconEntry.t) : Prop :=
  len (Icns.serialize entries) = BigEndian.Uint32 (skipn 4 (Icns.serialize entries)) /\
  BigEndian.Uint32 (skipn 4 (Icns.serialize entries)) = 8 + sumLengths entries.

(** C10 for ICO as the specification words it: the byte length of the
    buffer is 6 + 16*count + the payload lengths, which is the last entry's
    ImageOffset plus its BytesInRes. *)
Definition ico_size_exact (sizes : list Z) (imageData : list (list byte)) : Prop :=
  exists entries buffer,
    Ico.entriesOf sizes imageData = Some entries /\
    Ico.encode sizes imageData = Some buffer /\
    len buffer = 6 + 16 * len sizes + totalLen imageData /\
    forall e, nth_error entries (pred (List.length entries)) = Some e ->
      len buffer = Ico.ImageOffset e + Ico.BytesInRes e.

(** What went in, for ICO: one image per size. *)
Fixpoint imagesOf (sizes : list Z) (payloads : list (list byte))
    : list Reader.Image :=
  match sizes, payloads with
  | size :: sizes', pngData :: payloads' =>
      {| Reader.width := size; Reader.height := size; Reader.payload := pngData |}
      :: imagesOf sizes' payloads'
  | _, _ => []
  end.

(** What went in, for ICNS: one element per icon type. *)
Fixpoint elementsOf (types : list Icns.IconType.t) (payloads : list (list byte))
    : list (list byte * list byte) :=
  match types, payloads with
  | iconType :: types', pngData :: payloads' =>
      (list_byte_of_string (Icns.IconType.OSType iconType), pngData)
      :: elementsOf types' payloads'
  | _, _ => []
  end.

(** The image a reader takes from [file] for the directory entry [e]. *)
Definition imageOf (file : list byte) (e : Ico.ICONDIREntry) : Reader.Image :=
  {| Reader.width := Reader.dimension (Ico.Width e);
     Reader.height := Reader.dimension (Ico.Height e);
     Reader.payload := firstn (Z.to_nat (Ico.BytesInRes e))
                         (skipn (Z.to_nat (Ico.ImageOffset e)) file) |}.

(** An entry the reader accepts in [file]: its fields fit their types and
    its payload lies inside the file. *)
Definition readable (file : list byte) (e : Ico.ICONDIREntry) : Prop :=
  (forall rest, Reader.parseEntry (entryBytes e ++ rest) = e) /\
  Ico.ImageOffset e + Ico.BytesInRes e <= len file.

(** C9 for ICO as the specification words it: reading the buffer
    gives back the sizes and the payloads. *)
Definition ico_roundtrip_exact (payloads : list (list byte)) : Prop :=
  exists buffer,
    Ico.encode Ico.IconSizes payloads = Some buffer /\
    Reader.readIco buffer = Some (imagesOf Ico.IconSizes payloads).

(** An ICNS entry whose fields say what its bytes are: a 4-byte code and a
    length that is the payload's plus 8, without wrap-around. *)
Definition wellSized (e : Icns.IconEntry.t) : Prop :=
  List.length (Icns.IconEntry.OSType e) = 4%nat /\
  Icns.IconEntry.Length e = len (Icns.IconEntry.Data e) + 8 /\
  Icns.IconEntry.Length e < 2 ^ 32.

(** The elements of an ICNS file for any table: the type code as
    [copy] leaves it in the [[4]byte], and the payload. *)
Fixpoint paddedElementsOf (types : list Icns.IconType.t)
    (payloads : list (list byte)) : list (list byte * list byte) :=
  match types, payloads with
  | iconType :: types', pngData :: payloads' =>
      (copy4 (Icns.IconType.OSType iconType), pngData)
      :: paddedElementsOf types' payloads'
  | _, _ => []
  end.

(** The bytes the elements of [payloads] take in an ICNS file: 8 bytes of
    element header and the payload, for each. *)
Fixpoint elementsLength (payloads : list (list byte)) : nat :=
  match payloads with
  | [] => 0%nat
  | pngData :: payloads' => (List.length pngData + 8 + elementsLength payloads')%nat
  end.

(** The first failure of a rasterization loop over [sizes]: the sizes before
    [size] were rendered and [size] fails with [cause]. *)
Definition firstFailure {error : Type} (SvgToPng : string -> Z -> error + list byte)
    (svgPath : string) (sizes done : list Z) (size : Z) (cause : error) : Prop :=
  exists rest payloads,
    sizes = done ++ size :: rest /\
    rendered SvgToPng svgPath done payloads /\
    SvgToPng svgPath size = inl cause.

(** The same for the loop over a table of icon types. *)
Definition firstTypeFailure {error : Type}
    (SvgToPng : string -> Z -> error + list byte) (svgPath : string)
    (types done : list Icns.IconType.t) (iconType : Icns.IconType.t)
    (cause : error) : Prop :=
  exists rest payloads,
    types = done ++ iconType :: rest /\
    renderedTypes SvgToPng svgPath done payloads /\
    SvgToPng svgPath (Icns.IconType.Size iconType) = inl cause.

(** A table with a short and a long type code. *)
Definition oddTable : list Icns.IconType.t :=
  [Icns.iconType "ic" 16; Icns.iconType "icon32" 32].

(** C6 as the specification words it, for the field after the magic: the
    4 bytes read big-endian are the total size of the buffer. *)
Definition icns_total_field_exact (buffer : list byte) : Prop :=
  BigEndian.Uint32 (skipn 4 buffer) = len buffer.

(** The four bytes of a [uint32], least significant first. *)
Definition le32 (v : Z) : list byte :=
  [byte.of_Z v; byte.of_Z (Z.shiftr v 8);
   byte.of_Z (Z.shiftr v 16); byte.of_Z (Z.shiftr v 24)].

(** ** Lengths and wrap-around *)

Lemma len_nonneg {A : Type} (s : list A) : 0 <= len s.
Proof. unfold len. lia. Qed.

Lemma len_app {A : Type} (s t : list A) : len (s ++ t) = len s + len t.
Proof. unfold len. rewrite length_app. lia. Qed.

Lemma len_cons {A : Type} (a : A) (s : list A) : len (a :: s) = 1 + len s.
Proof. unfold len. cbn [List.length]. lia. Qed.

Lemma totalLen_cons p ps : totalLen (p :: ps) = len p + totalLen ps.
Proof. reflexivity. Qed.

Lemma totalLen_nonneg payloads : 0 <= totalLen payloads.
Proof.
  induction payloads as [|p ps IH]; [reflexivity|].
  rewrite totalLen_cons. pose proof (len_nonneg p). lia.
Qed.

Lemma totalLen_app ps qs : totalLen (ps ++ qs) = totalLen ps + totalLen qs.
Proof.
  induction ps as [|p ps IH]; [reflexivity|].
  cbn [app]. rewrite !totalLen_cons, IH. lia.
Qed.

Lemma len_concat ps : len (concat ps) = totalLen ps.
Proof.
  induction ps as [|p ps IH]; [reflexivity|].
  cbn [concat]. rewrite len_app, IH. reflexivity.
Qed.

Lemma totalLen_firstn_le i ps : totalLen (firstn i ps) <= totalLen ps.
Proof.
  rewrite <- (firstn_skipn i ps) at 2. rewrite totalLen_app.
  pose proof (totalLen_nonneg (skipn i ps)). lia.
Qed.

Lemma totalLen_firstn_S i ps p :
  nth_error ps i = Some p ->
  totalLen (firstn (S i) ps) = totalLen (firstn i ps) + len p.
Proof.
  revert ps; induction i as [|i IH]; intros [|q ps] H; try discriminate.
  - injection H as ->. cbn [firstn]. rewrite !totalLen_cons.
    change (totalLen []) with 0. lia.
  - cbn [nth_error] in H. specialize (IH _ H).
    change (firstn (S (S i)) (q :: ps)) with (q :: firstn (S i) ps).
    change (firstn (S i) (q :: ps)) with (q :: firstn i ps).
    rewrite !totalLen_cons, IH. lia.
Qed.

Lemma uint32_range z : 0 <= uint32 z < 2 ^ 32.
Proof. unfold uint32. apply Z.mod_pos_bound. lia. Qed.

Lemma uint32_small z : 0 <= z < 2 ^ 32 -> uint32 z = z.
Proof. unfold uint32. intros H. apply Z.mod_small. exact H. Qed.

Lemma uint32_idem z : uint32 (uint32 z) = uint32 z.
Proof. unfold uint32. apply Z.mod_mod. lia. Qed.

Lemma uint32_add_l a b : uint32 (uint32 a + b) = uint32 (a + b).
Proof. unfold uint32. apply Zplus_mod_idemp_l. Qed.

Lemma uint32_add_r a b : uint32 (a + uint32 b) = uint32 (a + b).
Proof. unfold uint32. apply Zplus_mod_idemp_r. Qed.

(** ** The buffer after the write loops *)

Lemma fold_Write payloads buffer :
  fold_left Write payloads buffer = buffer ++ concat payloads.
Proof.
  revert buffer; induction payloads as [|p ps IH]; intros buffer; cbn [fold_left concat].
  - now rewrite app_nil_r.
  - rewrite IH. unfold Write. now rewrite app_assoc.
Qed.

Lemma writeEntry_app buffer e : Ico.writeEntry buffer e = buffer ++ entryBytes e.
Proof.
  unfold Ico.writeEntry, entryBytes, LittleEndian.Write8, LittleEndian.Write16,
    LittleEndian.Write32, Write.
  now rewrite <- !app_assoc.
Qed.

Lemma fold_writeEntry entries buffer :
  fold_left Ico.writeEntry entries buffer = buffer ++ concat (map entryBytes entries).
Proof.
  revert buffer; induction entries as [|e es IH]; intros buffer; cbn [fold_left map concat].
  - now rewrite app_nil_r.
  - rewrite IH, writeEntry_app. now rewrite app_assoc.
Qed.

Lemma length_entryBytes e : List.length (entryBytes e) = 16%nat.
Proof. reflexivity. Qed.

Lemma length_directoryBytes entries :
  List.length (concat (map entryBytes entries)) = (16 * List.length entries)%nat.
Proof.
  induction entries as [|e es IH]; [reflexivity|].
  cbn [map concat]. rewrite length_app, IH, length_entryBytes. cbn [List.length]. lia.
Qed.

Lemma serialize_layout sizes entries imageData :
  Ico.serialize sizes entries imageData
  = (le_split 2 0 ++ le_split 2 1 ++ le_split 2 (uint16 (len sizes)))
    ++ concat (map entryBytes entries) ++ concat imageData.
Proof.
  unfold Ico.serialize. rewrite fold_Write, fold_writeEntry.
  unfold LittleEndian.Write16, Write. cbn [app].
  now rewrite <- !app_assoc.
Qed.

(** ** The rasterization loop of CreateIco *)

Section IcoRasterize.
Context {error : Type}.
Variable SvgToPng : string -> Z -> error + list byte.
Variable svgPath : string.

Lemma rasterize_rendered sizes : forall imageData payloads,
  rendered SvgToPng svgPath sizes payloads ->
  Ico.rasterize SvgToPng svgPath sizes imageData = inr (imageData ++ payloads).
Proof.
  induction sizes as [|s sizes IH]; intros imageData payloads H; inversion H; subst.
  - cbn. now rewrite app_nil_r.
  - cbn [Ico.rasterize]. rewrite H2. rewrite (IH _ _ H4).
    now rewrite <- app_assoc.
Qed.

Lemma rasterize_inr sizes : forall imageData result,
  Ico.rasterize SvgToPng svgPath sizes imageData = inr result ->
  exists payloads, result = imageData ++ payloads /\ rendered SvgToPng svgPath sizes payloads.
Proof.
  induction sizes as [|s sizes IH]; intros imageData result H; cbn [Ico.rasterize] in H.
  - injection H as <-. exists []. split; [now rewrite app_nil_r | constructor].
  - destruct (SvgToPng svgPath s) as [err|pngData] eqn:E; [discriminate|].
    destruct (IH _ _ H) as (payloads & -> & Hr).
    exists (pngData :: payloads). split.
    + now rewrite <- app_assoc.
    + constructor; assumption.
Qed.

Lemma rasterize_first_failure done size rest err : forall imageData,
  (forall s, In s done -> exists pngData, SvgToPng svgPath s = inr pngData) ->
  SvgToPng svgPath size = inl err ->
  Ico.rasterize SvgToPng svgPath (done ++ size :: rest) imageData = inl err.
Proof.
  induction done as [|s done IH]; intros imageData Hdone Hfail; cbn [app Ico.rasterize].
  - now rewrite Hfail.
  - destruct (Hdone s (or_introl eq_refl)) as [pngData ->].
    apply IH; [|exact Hfail]. intros s' Hs'. apply Hdone. now right.
Qed.

Lemma rendered_length sizes payloads :
  rendered SvgToPng svgPath sizes payloads -> List.length payloads = List.length sizes.
Proof. intros H. symmetry. exact (Forall2_length H). Qed.

End IcoRasterize.

(** ** The directory loop of CreateIco *)

Lemma directory_layout sizes : forall done payloads currentOffset entries,
  List.length payloads = List.length sizes ->
  Ico.directory (done ++ payloads) sizes (List.length done) currentOffset entries
  = Some (entries ++ layout sizes payloads currentOffset).
Proof.
  induction sizes as [|s sizes IH]; intros done payloads off entries Hlen.
  - destruct payloads; [|discriminate]. cbn. now rewrite app_nil_r.
  - destruct payloads as [|p payloads]; [discriminate|].
    cbn [Ico.directory layout].
    rewrite nth_error_app2, Nat.sub_diag by lia. cbn [nth_error].
    replace (done ++ p :: payloads) with ((done ++ [p]) ++ payloads)
      by now rewrite <- app_assoc.
    replace (S (List.length done)) with (List.length (done ++ [p]))
      by (rewrite length_app; cbn; lia).
    rewrite IH by (cbn in Hlen; lia).
    now rewrite <- app_assoc.
Qed.

Lemma entriesOf_layout sizes imageData :
  List.length imageData = List.length sizes ->
  Ico.entriesOf sizes imageData
  = Some (layout sizes imageData (uint32 (6 + len sizes * 16))).
Proof.
  intros H. unfold Ico.entriesOf.
  exact (directory_layout sizes [] imageData _ [] H).
Qed.

Lemma length_layout sizes : forall payloads currentOffset,
  List.length payloads = List.length sizes ->
  List.length (layout sizes payloads currentOffset) = List.length sizes.
Proof.
  induction sizes as [|s sizes IH]; intros [|p payloads] off H; try discriminate.
  - reflexivity.
  - cbn [layout List.length]. f_equal. apply IH. cbn in H. lia.
Qed.

(** The [i]-th entry: built from the [i]-th size and payload, at the start
    offset advanced (with wrap-around) by the payloads before it. *)
Lemma layout_nth sizes : forall payloads start i size pngData,
  nth_error sizes i = Some size ->
  nth_error payloads i = Some pngData ->
  nth_error (layout sizes payloads (uint32 start)) i
  = Some (Ico.makeEntry size pngData (uint32 (start + totalLen (firstn i payloads)))).
Proof.
  induction sizes as [|s sizes IH]; intros [|p payloads] start i size pngData Hs Hp;
    destruct i as [|i]; try discriminate.
  - injection Hs as ->. injection Hp as ->. cbn [layout nth_error firstn].
    change (totalLen []) with 0. now rewrite Z.add_0_r.
  - cbn [nth_error] in Hs, Hp. cbn [layout nth_error].
    rewrite uint32_add_l, uint32_add_r.
    rewrite (IH _ _ _ _ _ Hs Hp). cbn [firstn]. rewrite totalLen_cons.
    now rewrite Z.add_assoc.
Qed.

(** ** CreateIco as a whole *)

Section IcoWhole.
Context {error FS : Type}.
Variable SvgToPng : string -> Z -> error + list byte.
Variable WriteFile : string -> list byte -> FS -> option error * FS.

Lemma encode_rendered sizes payloads :
  List.length payloads = List.length sizes ->
  Ico.encode sizes payloads = Some (icoBuffer sizes payloads).
Proof.
  intros H. unfold Ico.encode. now rewrite (entriesOf_layout _ _ H).
Qed.

Lemma CreateIcoWith_rendered sizes payloads svgPath outputPath fs :
  rendered SvgToPng svgPath sizes payloads ->
  Ico.CreateIcoWith SvgToPng WriteFile sizes svgPath outputPath fs
  = Returned (fst (WriteFile outputPath (icoBuffer sizes payloads) fs))
             (snd (WriteFile outputPath (icoBuffer sizes payloads) fs)).
Proof.
  intros H. unfold Ico.CreateIcoWith.
  rewrite (rasterize_rendered _ _ _ [] _ H). cbn [app].
  rewrite (encode_rendered _ _ (rendered_length _ _ _ _ H)).
  now destruct (WriteFile outputPath (icoBuffer sizes payloads) fs).
Qed.

(** [imageData[i]] is never out of range: the call does not panic. *)
Lemma CreateIcoWith_no_panic sizes svgPath outputPath fs :
  Ico.CreateIcoWith SvgToPng WriteFile sizes svgPath outputPath fs <> Panicked.
Proof.
  unfold Ico.CreateIcoWith.
  destruct (Ico.rasterize SvgToPng svgPath sizes []) as [err|imageData] eqn:E;
    [discriminate|].
  destruct (rasterize_inr _ _ _ _ _ E) as (payloads & -> & Hr). cbn [app].
  rewrite (encode_rendered _ _ (rendered_length _ _ _ _ Hr)).
  now destruct (WriteFile outputPath (icoBuffer sizes payloads) fs).
Qed.

End IcoWhole.

(** ** C1: offsets and lengths in the ICO directory *)

Lemma nth_error_same_length {A B : Type} (l : list A) (l' : list B) i a :
  List.length l = List.length l' -> nth_error l i = Some a ->
  exists b, nth_error l' i = Some b.
Proof.
  intros Hlen H.
  assert (Hi : (i < List.length l')%nat).
  { rewrite <- Hlen. apply nth_error_Some. congruence. }
  destruct (nth_error l' i) as [b|] eqn:E; [now exists b|].
  apply nth_error_None in E. lia.
Qed.

Lemma ico_offsets_mod_holds sizes imageData :
  List.length imageData = List.length sizes -> ico_offsets_mod sizes imageData.
Proof.
  intros Hlen. eexists. split; [exact (entriesOf_layout _ _ Hlen)|].
  split; [exact (length_layout _ _ _ Hlen)|].
  intros i pngData Hp.
  destruct (nth_error_same_length _ sizes _ _ Hlen Hp) as [size Hs].
  eexists. split; [exact (layout_nth _ _ _ _ _ _ Hs Hp)|].
  unfold Ico.makeEntry.
  destruct (size =? 256); cbn [Ico.ImageOffset Ico.BytesInRes]; unfold uint32;
    (split; [f_equal; lia | reflexivity]).
Qed.

Lemma len_hugePayload : len hugePayload = 2 ^ 32.
Proof.
  unfold len, hugePayload. rewrite repeat_length. apply Z2Nat.id. lia.
Qed.

(** C1, counterexample: with a first payload of 2^32 bytes the first entry's
    BytesInRes is 0, not the payload's length. *)
Lemma ico_offsets_counterexample :
  ~ ico_offsets_exact Ico.IconSizes [hugePayload; []; []; []; []; []; []].
Proof.
  intros (entries & Hentries & _ & H).
  destruct (H 0%nat hugePayload eq_refl) as (e & He & _ & Hbytes).
  destruct (ico_offsets_mod_holds Ico.IconSizes
              [hugePayload; []; []; []; []; []; []] eq_refl)
    as (entries' & Hentries' & _ & H').
  rewrite Hentries in Hentries'. injection Hentries' as <-.
  destruct (H' 0%nat hugePayload eq_refl) as (e' & He' & _ & Hbytes').
  rewrite He in He'. injection He' as <-.
  rewrite Hbytes, len_hugePayload, Z.mod_same in Hbytes' by lia.
  lia.
Qed.

(** C1, as amended: every entry holds the offset
    6 + 16*count + (lengths of the payloads before it) and the length of its
    payload modulo 2^32, the fields being [uint32]; the values are the exact
    integers whenever 6 + 16*count + (all payload lengths) is below 2^32. *)
Theorem ico_directory_offsets (sizes : list Z) (imageData : list (list byte)) :
  List.length imageData = List.length sizes ->
  ico_offsets_mod sizes imageData /\
  (6 + 16 * len sizes + totalLen imageData < 2 ^ 32 ->
   ico_offsets_exact sizes imageData).
Proof.
  intros Hlen. split; [exact (ico_offsets_mod_holds _ _ Hlen)|].
  intros Hbound.
  destruct (ico_offsets_mod_holds _ _ Hlen) as (entries & He & Hl & H).
  exists entries. split; [exact He|]. split; [exact Hl|].
  intros i pngData Hp. destruct (H i pngData Hp) as (e & Hn & Hoff & Hbytes).
  exists e. split; [exact Hn|].
  pose proof (totalLen_firstn_le i imageData) as Hle.
  pose proof (totalLen_nonneg (firstn i imageData)) as H0.
  pose proof (len_nonneg sizes) as Hs.
  assert (Hpng : len pngData <= totalLen imageData).
  { pose proof (totalLen_firstn_S _ _ _ Hp) as HS.
    pose proof (totalLen_firstn_le (S i) imageData). lia. }
  pose proof (len_nonneg pngData).
  rewrite Hoff, Hbytes. split; apply Z.mod_small; lia.
Qed.

Lemma ico_directory_offsets_witness :
  ico_offsets_exact Ico.IconSizes
    [[Byte.x01]; [Byte.x02; Byte.x03]; []; []; []; []; [Byte.x04]].
Proof.
  apply (ico_directory_offsets Ico.IconSizes
           [[Byte.x01]; [Byte.x02; Byte.x03]; []; []; []; []; [Byte.x04]]).
  - reflexivity.
  - vm_compute. reflexivity.
Defined.

(** ** The loops of CreateIcns *)

Section IcnsLoops.
Context {error : Type}.
Variable SvgToPng : string -> Z -> error + list byte.
Variable svgPath : string.

Lemma buildEntries_rendered types : forall entries payloads,
  renderedTypes SvgToPng svgPath types payloads ->
  Icns.buildEntries SvgToPng svgPath types entries
  = inr (entries ++ entriesFor types payloads).
Proof.
  induction types as [|t types IH]; intros entries payloads H; inversion H; subst.
  - cbn. now rewrite app_nil_r.
  - cbn [Icns.buildEntries entriesFor]. rewrite H2, (IH _ _ H4).
    now rewrite <- app_assoc.
Qed.

Lemma buildEntries_inr types : forall entries result,
  Icns.buildEntries SvgToPng svgPath types entries = inr result ->
  exists payloads,
    result = entries ++ entriesFor types payloads /\ renderedTypes SvgToPng svgPath types payloads.
Proof.
  induction types as [|t types IH]; intros entries result H; cbn [Icns.buildEntries] in H.
  - injection H as <-. exists []. split; [now rewrite app_nil_r | constructor].
  - destruct (SvgToPng svgPath (Icns.IconType.Size t)) as [err|pngData] eqn:E;
      [discriminate|].
    destruct (IH _ _ H) as (payloads & -> & Hr).
    exists (pngData :: payloads). split.
    + cbn [entriesFor]. now rewrite <- app_assoc.
    + constructor; assumption.
Qed.

Lemma buildEntries_first_failure done iconType rest err : forall entries,
  (forall t, In t done ->
     exists pngData, SvgToPng svgPath (Icns.IconType.Size t) = inr pngData) ->
  SvgToPng svgPath (Icns.IconType.Size iconType) = inl err ->
  Icns.buildEntries SvgToPng svgPath (done ++ iconType :: rest) entries = inl err.
Proof.
  induction done as [|t done IH]; intros entries Hdone Hfail;
    cbn [app Icns.buildEntries].
  - now rewrite Hfail.
  - destruct (Hdone t (or_introl eq_refl)) as [pngData ->].
    apply IH; [|exact Hfail]. intros t' Ht'. apply Hdone. now right.
Qed.

End IcnsLoops.

Lemma totalSizeOf_fold entries : forall start,
  fold_left (fun totalSize entry => uint32 (totalSize + Icns.IconEntry.Length entry))
    entries (uint32 start)
  = uint32 (start + sumLengths entries).
Proof.
  induction entries as [|e es IH]; intros start; cbn [fold_left].
  - change (sumLengths []) with 0. now rewrite Z.add_0_r.
  - rewrite uint32_add_l, IH. f_equal.
    change (sumLengths (e :: es)) with (Icns.IconEntry.Length e + sumLengths es). lia.
Qed.

Lemma totalSizeOf_mod entries :
  Icns.totalSizeOf entries = (8 + sumLengths entries) mod 2 ^ 32.
Proof. unfold Icns.totalSizeOf. now rewrite totalSizeOf_fold. Qed.

Lemma Forall_entriesFor (P : Icns.IconEntry.t -> Prop) types : forall payloads,
  (forall t p, P (Icns.makeEntry t p)) -> Forall P (entriesFor types payloads).
Proof.
  induction types as [|t types IH]; intros [|p payloads] H; cbn [entriesFor];
    constructor; auto.
Qed.

Lemma sumLengths_exact entries :
  Forall (fun e => Icns.IconEntry.Length e = len (Icns.IconEntry.Data e) + 8) entries ->
  8 + sumLengths entries = icnsSize entries.
Proof.
  unfold icnsSize. induction 1 as [|e es He _ IH]; [reflexivity|].
  change (sumLengths (e :: es)) with (Icns.IconEntry.Length e + sumLengths es).
  cbn [fold_right]. lia.
Qed.

Lemma icnsSize_cons e es :
  icnsSize (e :: es) = len (Icns.IconEntry.Data e) + 8 + icnsSize es.
Proof. unfold icnsSize. cbn [fold_right]. lia. Qed.

Lemma icnsSize_lower entries : 8 <= icnsSize entries.
Proof.
  induction entries as [|e es IH]; [unfold icnsSize; cbn; lia|].
  rewrite icnsSize_cons. pose proof (len_nonneg (Icns.IconEntry.Data e)). lia.
Qed.

Lemma icnsSize_In e entries :
  In e entries -> len (Icns.IconEntry.Data e) + 8 + 8 <= icnsSize entries.
Proof.
  induction entries as [|e' es IH]; intros H; [contradiction|].
  rewrite icnsSize_cons. destruct H as [->|H].
  - pose proof (icnsSize_lower es). lia.
  - specialize (IH H). pose proof (len_nonneg (Icns.IconEntry.Data e')). lia.
Qed.

(** ** Decoding what [binary.Write] wrote *)

Lemma BigEndian_Uint32_Write32 v rest :
  BigEndian.Uint32 (rev (le_split 4 v) ++ rest) = v mod 2 ^ 32.
Proof.
  unfold BigEndian.Uint32.
  rewrite firstn_app, firstn_all2 by (rewrite length_rev, length_le_split; lia).
  rewrite length_rev, length_le_split. cbn [Nat.sub firstn]. rewrite app_nil_r.
  rewrite rev_involutive, le_combine_split. reflexivity.
Qed.

Lemma LittleEndian_Uint32_Write32 v rest :
  LittleEndian.Uint32 (le_split 4 v ++ rest) = v mod 2 ^ 32.
Proof.
  unfold LittleEndian.Uint32.
  rewrite firstn_app, firstn_all2 by (rewrite length_le_split; lia).
  rewrite length_le_split. cbn [Nat.sub firstn]. rewrite app_nil_r.
  rewrite le_combine_split. reflexivity.
Qed.

Lemma LittleEndian_Uint16_Write16 v rest :
  LittleEndian.Uint16 (le_split 2 v ++ rest) = v mod 2 ^ 16.
Proof.
  unfold LittleEndian.Uint16.
  rewrite firstn_app, firstn_all2 by (rewrite length_le_split; lia).
  rewrite length_le_split. cbn [Nat.sub firstn]. rewrite app_nil_r.
  rewrite le_combine_split. reflexivity.
Qed.

Lemma le_combine_byte v rest :
  le_combine (firstn 1 (le_split 1 v ++ rest)) = v mod 2 ^ 8.
Proof.
  rewrite firstn_app, firstn_all2 by (rewrite length_le_split; lia).
  rewrite length_le_split. cbn [Nat.sub firstn]. rewrite app_nil_r.
  rewrite le_combine_split. reflexivity.
Qed.

(** ** The buffer CreateIcns serializes *)

Lemma icns_writeEntry_app buffer e :
  Icns.writeEntry buffer e = buffer ++ elementBytes e.
Proof.
  unfold Icns.writeEntry, elementBytes, BigEndian.Write32, Write.
  now rewrite <- !app_assoc.
Qed.

Lemma fold_icns_writeEntry entries buffer :
  fold_left Icns.writeEntry entries buffer
  = buffer ++ concat (map elementBytes entries).
Proof.
  revert buffer; induction entries as [|e es IH]; intros buffer; cbn [fold_left map concat].
  - now rewrite app_nil_r.
  - rewrite IH, icns_writeEntry_app. now rewrite app_assoc.
Qed.

Lemma icns_serialize_layout entries :
  Icns.serialize entries
  = list_byte_of_string "icns"
    ++ rev (le_split 4 (Icns.totalSizeOf entries))
    ++ concat (map elementBytes entries).
Proof.
  unfold Icns.serialize. rewrite fold_icns_writeEntry.
  unfold BigEndian.Write32, WriteString, Write. cbn [app].
  now rewrite <- !app_assoc.
Qed.

(** ** C2: the length fields of an ICNS file *)

Lemma icns_totalSize_field entries :
  BigEndian.Uint32 (skipn 4 (Icns.serialize entries))
  = (8 + sumLengths entries) mod 2 ^ 32.
Proof.
  rewrite icns_serialize_layout. cbn [list_byte_of_string].
  change (skipn 4 (list_byte_of_string "icns" ++ ?l)) with l.
  rewrite BigEndian_Uint32_Write32, totalSizeOf_mod.
  apply Z.mod_mod. lia.
Qed.

Lemma icns_lengths_mod_holds types payloads :
  icns_lengths_mod (entriesFor types payloads).
Proof.
  split; [|apply icns_totalSize_field].
  apply Forall_entriesFor. intros t p. reflexivity.
Qed.

Lemma icns_lengths_exact_holds entries :
  icns_lengths_mod entries -> icnsSize entries < 2 ^ 32 -> icns_lengths_exact entries.
Proof.
  intros [Hlen Htotal] Hbound.
  assert (Hexact : Forall (fun e => Icns.IconEntry.Length e
                                    = len (Icns.IconEntry.Data e) + 8) entries).
  { rewrite Forall_forall in *. intros e He. rewrite (Hlen e He).
    pose proof (icnsSize_In e entries He). pose proof (len_nonneg (Icns.IconEntry.Data e)).
    apply Z.mod_small. lia. }
  split; [exact Hexact|].
  rewrite Htotal. apply Z.mod_small.
  rewrite (sumLengths_exact _ Hexact). pose proof (icnsSize_lower entries). lia.
Qed.

Lemma icns_lengths_wrap (big : list byte) :
  len big = 2 ^ 32 ->
  exists entries,
    Icns.buildEntries (bigAt16 big) "icon.svg" Icns.StandardIconTypes [] = inr entries /\
    ~ icns_lengths_exact entries.
Proof.
  intros Hbig. eexists. split; [reflexivity|].
  intros [H _]. apply Forall_inv in H.
  cbn in H. rewrite Hbig in H. vm_compute in H. discriminate H.
Qed.

(** C2, counterexample: with a 16-pixel payload of 2^32 bytes the length
    field of "icp4" is 8, not 2^32 + 8. *)
Lemma icns_lengths_counterexample :
  exists entries,
    Icns.buildEntries (bigAt16 hugePayload) "icon.svg" Icns.StandardIconTypes []
    = inr entries /\
    ~ icns_lengths_exact entries.
Proof. exact (icns_lengths_wrap hugePayload len_hugePayload). Qed.

(** C2, as amended: every entry's length field is its payload's length plus
    8 modulo 2^32 and the total-size field is 8 plus the sum of the entries'
    length fields modulo 2^32, the fields being [uint32]; both are the exact
    integers whenever 8 + (sum of payload lengths + 8 each) is below 2^32. *)
Theorem icns_length_fields {error : Type} (SvgToPng : string -> Z -> error + list byte)
    (svgPath : string) (types : list Icns.IconType.t) (entries : list Icns.IconEntry.t) :
  Icns.buildEntries SvgToPng svgPath types [] = inr entries ->
  icns_lengths_mod entries /\
  (icnsSize entries < 2 ^ 32 -> icns_lengths_exact entries).
Proof.
  intros H. destruct (buildEntries_inr _ _ _ _ _ H) as (payloads & -> & _).
  cbn [app]. pose proof (icns_lengths_mod_holds types payloads) as Hmod.
  split; [exact Hmod|]. now apply icns_lengths_exact_holds.
Qed.

Lemma icns_length_fields_witness :
  exists entries,
    Icns.buildEntries sampleRaster "icon.svg" Icns.StandardIconTypes [] = inr entries /\
    icns_lengths_exact entries.
Proof.
  eexists. split; [reflexivity|].
  apply (icns_length_fields sampleRaster "icon.svg" Icns.StandardIconTypes _ eq_refl).
  vm_compute. reflexivity.
Defined.

(** ** C3: the dimension bytes of the ICO directory *)

Lemma nth_error_records (entries : list Ico.ICONDIREntry) : forall i e k rest,
  nth_error entries i = Some e ->
  (k < 16)%nat ->
  nth_error (concat (map entryBytes entries) ++ rest) (16 * i + k)
  = nth_error (entryBytes e) k.
Proof.
  induction entries as [|e' es IH]; intros [|i] e k rest He Hk; try discriminate.
  - injection He as ->. cbn [map concat]. rewrite <- app_assoc.
    rewrite Nat.mul_0_r, Nat.add_0_l.
    apply nth_error_app1. now rewrite length_entryBytes.
  - cbn [nth_error] in He. cbn [map concat]. rewrite <- app_assoc.
    rewrite nth_error_app2 by (rewrite length_entryBytes; lia).
    rewrite length_entryBytes.
    replace (16 * S i + k - 16)%nat with (16 * i + k)%nat by lia.
    now apply IH.
Qed.

(** Byte [k] of entry [i] in the serialized file. *)
Lemma icoBuffer_entry_byte sizes imageData i e k :
  nth_error (layout sizes imageData (uint32 (6 + len sizes * 16))) i = Some e ->
  (k < 16)%nat ->
  nth_error (icoBuffer sizes imageData) (6 + 16 * i + k) = nth_error (entryBytes e) k.
Proof.
  intros He Hk. unfold icoBuffer. rewrite serialize_layout.
  rewrite nth_error_app2 by (rewrite !length_app, !length_le_split; lia).
  rewrite !length_app, !length_le_split.
  replace (6 + 16 * i + k - (2 + (2 + 2)))%nat with (16 * i + k)%nat by lia.
  now apply nth_error_records.
Qed.

(** C3: for every size of the ICO size list the entry's width and height,
    and the two bytes written for them, are 0 when the size is 256 and the
    size itself otherwise; only the size 256 gives 0. *)
Theorem ico_dimension_bytes (imageData : list (list byte)) :
  List.length imageData = List.length Ico.IconSizes ->
  exists entries,
    Ico.entriesOf Ico.IconSizes imageData = Some entries /\
    forall i size, nth_error Ico.IconSizes i = Some size ->
      exists e, nth_error entries i = Some e /\
        Ico.Width e = (if size =? 256 then 0 else size) /\
        Ico.Height e = (if size =? 256 then 0 else size) /\
        (Ico.Width e = 0 <-> size = 256) /\
        (Ico.Height e = 0 <-> size = 256) /\
        nth_error (icoBuffer Ico.IconSizes imageData) (6 + 16 * i)
        = Some (byte.of_Z (if size =? 256 then 0 else size)) /\
        nth_error (icoBuffer Ico.IconSizes imageData) (6 + 16 * i + 1)
        = Some (byte.of_Z (if size =? 256 then 0 else size)).
Proof.
  intros Hlen. eexists. split; [exact (entriesOf_layout _ _ Hlen)|].
  intros i size Hs.
  destruct (nth_error_same_length _ imageData _ _ (eq_sym Hlen) Hs) as [pngData Hp].
  pose proof (layout_nth _ _ (6 + len Ico.IconSizes * 16) _ _ _ Hs Hp) as He.
  eexists. split; [exact He|].
  assert (Hw : Ico.Width (Ico.makeEntry size pngData
                 (uint32 (6 + len Ico.IconSizes * 16 + totalLen (firstn i imageData))))
               = (if size =? 256 then 0 else size)
               /\ Ico.Height (Ico.makeEntry size pngData
                 (uint32 (6 + len Ico.IconSizes * 16 + totalLen (firstn i imageData))))
               = (if size =? 256 then 0 else size)).
  { apply nth_error_In in Hs. unfold Ico.makeEntry.
    cbn [Ico.IconSizes In] in Hs.
    repeat (destruct Hs as [<-|Hs]; [split; reflexivity|]). contradiction. }
  destruct Hw as [Hw Hh].
  assert (Hz : (if size =? 256 then 0 else size) = 0 <-> size = 256).
  { apply nth_error_In in Hs. cbn [Ico.IconSizes In] in Hs.
    repeat (destruct Hs as [<-|Hs]; [cbn; lia|]). contradiction. }
  split; [exact Hw|]. split; [exact Hh|].
  split; [now rewrite Hw|]. split; [now rewrite Hh|].
  split.
  - rewrite <- (Nat.add_0_r (6 + 16 * i)).
    rewrite (icoBuffer_entry_byte _ _ _ _ 0%nat He) by lia.
    unfold entryBytes. cbn [le_split app nth_error]. now rewrite Hw.
  - rewrite (icoBuffer_entry_byte _ _ _ _ 1%nat He) by lia.
    unfold entryBytes. cbn [le_split app nth_error]. now rewrite Hh.
Qed.

Lemma ico_dimension_bytes_witness :
  exists entries,
    Ico.entriesOf Ico.IconSizes (repeat [Byte.x2a] 7) = Some entries /\
    forall i size, nth_error Ico.IconSizes i = Some size ->
      exists e, nth_error entries i = Some e /\
        Ico.Width e = (if size =? 256 then 0 else size) /\
        Ico.Height e = (if size =? 256 then 0 else size) /\
        (Ico.Width e = 0 <-> size = 256) /\
        (Ico.Height e = 0 <-> size = 256) /\
        nth_error (icoBuffer Ico.IconSizes (repeat [Byte.x2a] 7)) (6 + 16 * i)
        = Some (byte.of_Z (if size =? 256 then 0 else size)) /\
        nth_error (icoBuffer Ico.IconSizes (repeat [Byte.x2a] 7)) (6 + 16 * i + 1)
        = Some (byte.of_Z (if size =? 256 then 0 else size)).
Proof. apply (ico_dimension_bytes (repeat [Byte.x2a] 7)). reflexivity. Defined.

(** ** CreateIcns as a whole *)

Section IcnsWhole.
Context {error FS : Type}.
Variable SvgToPng : string -> Z -> error + list byte.
Variable WriteFile : string -> list byte -> FS -> option error * FS.

Lemma CreateIcnsWith_rendered types payloads svgPath outputPath fs :
  renderedTypes SvgToPng svgPath types payloads ->
  Icns.CreateIcnsWith SvgToPng WriteFile types svgPath outputPath fs
  = Returned (fst (WriteFile outputPath (icnsBuffer types payloads) fs))
             (snd (WriteFile outputPath (icnsBuffer types payloads) fs)).
Proof.
  intros H. unfold Icns.CreateIcnsWith.
  rewrite (buildEntries_rendered _ _ _ [] _ H). cbn [app].
  unfold icnsBuffer.
  now destruct (WriteFile outputPath (Icns.serialize (entriesFor types payloads)) fs).
Qed.

Lemma CreateIcnsWith_no_panic types svgPath outputPath fs :
  Icns.CreateIcnsWith SvgToPng WriteFile types svgPath outputPath fs <> Panicked.
Proof.
  unfold Icns.CreateIcnsWith.
  destruct (Icns.buildEntries SvgToPng svgPath types []) as [err|entries];
    [discriminate|].
  now destruct (WriteFile outputPath (Icns.serialize entries) fs).
Qed.

End IcnsWhole.

(** ** C4: a failed rasterization *)

(** C4, counterexample: a failure at size 16 and a failure at size 24 return
    the same error, so the error does not tell the size. *)
Lemma error_identifies_size_counterexample :
  ~ error_identifies_size string (option (string * list byte)).
Proof.
  intros [sizeOf H].
  pose proof (H failOpen writeLast "icon.svg"%string "icon.ico"%string None
                [] 16 [24; 32; 48; 64; 128; 256] _ _ _
                eq_refl (fun s (F : In s []) => match F with end) eq_refl eq_refl) as H16.
  assert (Hdone : forall s, In s [16] ->
            exists pngData, failOpenAfter16 "icon.svg" s = inr pngData).
  { intros s [<-|[]]. now exists [Byte.x2a]. }
  pose proof (H failOpenAfter16 writeLast "icon.svg"%string "icon.ico"%string None
                [16] 24 [32; 48; 64; 128; 256] _ _ _
                eq_refl Hdone eq_refl eq_refl) as H24.
  rewrite H16 in H24. discriminate H24.
Qed.

(** C4, as amended: when the rasterization of a size (of an icon type's
    size) fails after the earlier ones succeeded, CreateIco and CreateIcns
    return that very error, unwrapped, and leave the file system as it was,
    os.WriteFile not being called; the error says nothing more about the
    size than the rasterizer put in it. *)
Theorem rasterization_failure_aborts {error FS : Type}
    (SvgToPng : string -> Z -> error + list byte)
    (WriteFile : string -> list byte -> FS -> option error * FS)
    (svgPath outputPath : string) (fs : FS) :
  (forall sizes done size rest cause,
     sizes = done ++ size :: rest ->
     (forall s, In s done -> exists pngData, SvgToPng svgPath s = inr pngData) ->
     SvgToPng svgPath size = inl cause ->
     Ico.CreateIcoWith SvgToPng WriteFile sizes svgPath outputPath fs
     = Returned (Some cause) fs) /\
  (forall types done iconType rest cause,
     types = done ++ iconType :: rest ->
     (forall t, In t done ->
        exists pngData, SvgToPng svgPath (Icns.IconType.Size t) = inr pngData) ->
     SvgToPng svgPath (Icns.IconType.Size iconType) = inl cause ->
     Icns.CreateIcnsWith SvgToPng WriteFile types svgPath outputPath fs
     = Returned (Some cause) fs).
Proof.
  split.
  - intros sizes done size rest cause -> Hdone Hfail. unfold Ico.CreateIcoWith.
    now rewrite (rasterize_first_failure _ _ _ _ _ _ [] Hdone Hfail).
  - intros types done iconType rest cause -> Hdone Hfail. unfold Icns.CreateIcnsWith.
    now rewrite (buildEntries_first_failure _ _ _ _ _ _ [] Hdone Hfail).
Qed.

Lemma rasterization_failure_aborts_witness :
  Ico.CreateIco failAt32 writeLast "icon.svg" "icon.ico" None
  = Returned (Some "png: invalid format"%string) None /\
  Icns.CreateIcns failAt32 writeLast "icon.svg" "icon.icns" None
  = Returned (Some "png: invalid format"%string) None.
Proof.
  split.
  - apply (proj1 (rasterization_failure_aborts failAt32 writeLast
                    "icon.svg" "icon.ico" None)
             Ico.IconSizes [16; 24] 32 [48; 64; 128; 256]).
    + reflexivity.
    + intros s [<-|[<-|[]]]; now exists [Byte.x2a].
    + reflexivity.
  - apply (proj2 (rasterization_failure_aborts failAt32 writeLast
                    "icon.svg" "icon.icns" None)
             Icns.StandardIconTypes [Icns.iconType "icp4" 16]
             (Icns.iconType "icp5" 32)
             (skipn 2 Icns.StandardIconTypes)).
    + reflexivity.
    + intros t [<-|[]]. now exists [Byte.x2a].
    + reflexivity.
Defined.

(** ** C5: the layout of a default ICO file *)

(** Reading back the 16 bytes of an entry gives its fields, each reduced to
    the width of its type. *)
Lemma parseEntry_entryBytes e rest :
  Reader.parseEntry (entryBytes e ++ rest)
  = {| Ico.Width := Ico.Width e mod 2 ^ 8;
       Ico.Height := Ico.Height e mod 2 ^ 8;
       Ico.ColorCount := Ico.ColorCount e mod 2 ^ 8;
       Ico.Reserved := Ico.Reserved e mod 2 ^ 8;
       Ico.Planes := Ico.Planes e mod 2 ^ 16;
       Ico.BitCount := Ico.BitCount e mod 2 ^ 16;
       Ico.BytesInRes := Ico.BytesInRes e mod 2 ^ 32;
       Ico.ImageOffset := Ico.ImageOffset e mod 2 ^ 32 |}.
Proof.
  unfold Reader.parseEntry, entryBytes. rewrite <- !app_assoc.
  f_equal.
  - apply le_combine_byte.
  - change (skipn 1 (le_split 1 ?a ++ ?r)) with r. apply le_combine_byte.
  - change (skipn 2 (le_split 1 ?a ++ le_split 1 ?b ++ ?r)) with r.
    apply le_combine_byte.
  - change (skipn 3 (le_split 1 ?a ++ le_split 1 ?b ++ le_split 1 ?c ++ ?r)) with r.
    apply le_combine_byte.
  - change (skipn 4 (le_split 1 ?a ++ le_split 1 ?b ++ le_split 1 ?c
                     ++ le_split 1 ?d ++ ?r)) with r.
    apply LittleEndian_Uint16_Write16.
  - change (skipn 6 (le_split 1 ?a ++ le_split 1 ?b ++ le_split 1 ?c
                     ++ le_split 1 ?d ++ le_split 2 ?f ++ ?r)) with r.
    apply LittleEndian_Uint16_Write16.
  - change (skipn 8 (le_split 1 ?a ++ le_split 1 ?b ++ le_split 1 ?c
                     ++ le_split 1 ?d ++ le_split 2 ?f ++ le_split 2 ?g ++ ?r)) with r.
    apply LittleEndian_Uint32_Write32.
  - change (skipn 12 (le_split 1 ?a ++ le_split 1 ?b ++ le_split 1 ?c
                      ++ le_split 1 ?d ++ le_split 2 ?f ++ le_split 2 ?g
                      ++ le_split 4 ?h ++ ?r)) with r.
    apply LittleEndian_Uint32_Write32.
Qed.

(** The fields of an entry of the directory loop fit their types. *)
Lemma parseEntry_makeEntry size pngData offset rest :
  Reader.parseEntry (entryBytes (Ico.makeEntry size pngData (uint32 offset)) ++ rest)
  = Ico.makeEntry size pngData (uint32 offset).
Proof.
  rewrite parseEntry_entryBytes. unfold Ico.makeEntry.
  destruct (size =? 256); cbn [Ico.Width Ico.Height Ico.ColorCount Ico.Reserved
    Ico.Planes Ico.BitCount Ico.BytesInRes Ico.ImageOffset];
    unfold uint8, uint32; rewrite ?Z.mod_mod by lia; reflexivity.
Qed.

Lemma skipn_records (entries : list Ico.ICONDIREntry) : forall i,
  skipn (16 * i) (concat (map entryBytes entries))
  = concat (map entryBytes (skipn i entries)).
Proof.
  induction entries as [|e es IH]; intros [|i]; try reflexivity.
  cbn [map concat skipn]. replace (16 * S i)%nat with (16 + 16 * i)%nat by lia.
  rewrite skipn_app, length_entryBytes.
  rewrite skipn_all2 by (rewrite length_entryBytes; lia).
  replace (16 + 16 * i - 16)%nat with (16 * i)%nat by lia.
  cbn [app]. apply IH.
Qed.

Lemma nth_error_skipn_cons {A : Type} (l : list A) : forall i a,
  nth_error l i = Some a -> skipn i l = a :: skipn (S i) l.
Proof.
  induction l as [|b l IH]; intros [|i] a H; try discriminate.
  - now injection H as ->.
  - cbn [nth_error] in H. cbn [skipn]. rewrite (IH _ _ H). reflexivity.
Qed.

(** The [i]-th 16-byte record of the directory region reads back as the
    [i]-th entry of the loop. *)
Lemma directory_record_parses sizes payloads start i e :
  nth_error (layout sizes payloads (uint32 start)) i = Some e ->
  List.length payloads = List.length sizes ->
  Reader.parseEntry
    (firstn 16 (skipn (16 * i)
       (concat (map entryBytes (layout sizes payloads (uint32 start))))))
  = e.
Proof.
  intros He Hlen.
  rewrite skipn_records, (nth_error_skipn_cons _ _ _ He). cbn [map concat].
  rewrite firstn_app, length_entryBytes, Nat.sub_diag.
  rewrite firstn_all2 by (rewrite length_entryBytes; lia). cbn [firstn].
  assert (Hi : (i < List.length sizes)%nat).
  { rewrite <- (length_layout sizes payloads (uint32 start) Hlen).
    apply nth_error_Some. congruence. }
  destruct (nth_error sizes i) as [size|] eqn:Hs;
    [|apply nth_error_None in Hs; lia].
  destruct (nth_error payloads i) as [pngData|] eqn:Hp;
    [|apply nth_error_None in Hp; lia].
  rewrite (layout_nth _ _ _ _ _ _ Hs Hp) in He. injection He as <-.
  apply parseEntry_makeEntry.
Qed.

(** C5: when all seven rasterizations succeed, the buffer CreateIco writes
    is the 6 bytes 00 00 01 00 07 00, then 7*16 = 112 bytes of directory,
    whose [i]-th 16-byte record holds the [i]-th entry in little-endian
    fixed-width fields, then the seven payloads in size-list order. *)
Theorem ico_default_layout {error FS : Type}
    (SvgToPng : string -> Z -> error + list byte)
    (WriteFile : string -> list byte -> FS -> option error * FS)
    (svgPath outputPath : string) (fs : FS) (payloads : list (list byte)) :
  rendered SvgToPng svgPath Ico.IconSizes payloads ->
  exists entries directoryBytes,
    let buffer :=
      [Byte.x00; Byte.x00; Byte.x01; Byte.x00; Byte.x07; Byte.x00]
      ++ directoryBytes ++ concat payloads in
    Ico.CreateIco SvgToPng WriteFile svgPath outputPath fs
    = Returned (fst (WriteFile outputPath buffer fs))
               (snd (WriteFile outputPath buffer fs)) /\
    List.length payloads = 7%nat /\
    Ico.entriesOf Ico.IconSizes payloads = Some entries /\
    List.length entries = 7%nat /\
    List.length directoryBytes = 112%nat /\
    forall i e, nth_error entries i = Some e ->
      Reader.parseEntry (firstn 16 (skipn (16 * i) directoryBytes)) = e.
Proof.
  intros Hr. pose proof (rendered_length _ _ _ _ Hr) as Hlen.
  exists (layout Ico.IconSizes payloads (uint32 (6 + len Ico.IconSizes * 16))).
  exists (concat (map entryBytes
            (layout Ico.IconSizes payloads (uint32 (6 + len Ico.IconSizes * 16))))).
  cbv zeta. split; [|split; [exact Hlen|split; [exact (entriesOf_layout _ _ Hlen)|]]].
  - unfold Ico.CreateIco. rewrite (CreateIcoWith_rendered _ _ _ _ _ _ _ Hr).
    unfold icoBuffer. rewrite serialize_layout. reflexivity.
  - split; [exact (length_layout _ _ _ Hlen)|]. split.
    + rewrite length_directoryBytes, (length_layout _ _ _ Hlen). reflexivity.
    + intros i e He. exact (directory_record_parses _ _ _ _ _ He Hlen).
Qed.

Lemma rendered_sampleRaster :
  rendered sampleRaster "icon.svg" Ico.IconSizes
    (map (fun size => repeat Byte.x2a (Z.to_nat size)) Ico.IconSizes).
Proof. repeat constructor. Qed.

Lemma ico_default_layout_witness :
  exists buffer,
    firstn 6 buffer = [Byte.x00; Byte.x00; Byte.x01; Byte.x00; Byte.x07; Byte.x00] /\
    Ico.CreateIco sampleRaster writeLast "icon.svg" "icon.ico" None
    = Returned None (Some ("icon.ico"%string, buffer)).
Proof.
  destruct (ico_default_layout sampleRaster writeLast "icon.svg" "icon.ico" None
              _ rendered_sampleRaster) as (entries & directoryBytes & H & _).
  cbv zeta in H. eexists. split; [|exact H]. reflexivity.
Defined.

(** ** C7: an empty ICO size list *)

(** C7: with an empty size list CreateIco rasterizes nothing, does not
    panic, and hands os.WriteFile the 6-byte header 00 00 01 00 00 00 with
    entry count 0; what it returns is what os.WriteFile returns. *)
Theorem ico_empty_size_list {error FS : Type}
    (SvgToPng : string -> Z -> error + list byte)
    (WriteFile : string -> list byte -> FS -> option error * FS)
    (svgPath outputPath : string) (fs : FS) :
  let buffer := [Byte.x00; Byte.x00; Byte.x01; Byte.x00; Byte.x00; Byte.x00] in
  Ico.encode [] [] = Some buffer /\
  Ico.CreateIcoWith SvgToPng WriteFile [] svgPath outputPath fs
  = Returned (fst (WriteFile outputPath buffer fs))
             (snd (WriteFile outputPath buffer fs)).
Proof.
  cbv zeta. split; [reflexivity|].
  unfold Ico.CreateIcoWith. cbn [Ico.rasterize].
  change (Ico.encode [] [])
    with (Some [Byte.x00; Byte.x00; Byte.x01; Byte.x00; Byte.x00; Byte.x00]).
  cbv iota.
  now destruct (WriteFile outputPath
                  [Byte.x00; Byte.x00; Byte.x01; Byte.x00; Byte.x00; Byte.x00] fs).
Qed.


(** ** C6: the layout of an ICNS file *)

Lemma BigEndian_be32 v : rev (le_split 4 v) = be32 v.
Proof.
  unfold be32. cbv [le_split rev app].
  rewrite !Z.shiftr_shiftr by lia. reflexivity.
Qed.

Lemma elements_of_entriesFor types : forall payloads,
  Forall (fun t => copy4 (Icns.IconType.OSType t)
                   = list_byte_of_string (Icns.IconType.OSType t)) types ->
  concat (map elementBytes (entriesFor types payloads))
  = concat (map icnsElement (combine types payloads)).
Proof.
  induction types as [|t types IH]; intros [|p payloads] H; try reflexivity.
  inversion H as [|? ? Ht Hts]; subst.
  cbn [entriesFor combine map concat]. rewrite (IH _ Hts). f_equal.
  unfold elementBytes, icnsElement, Icns.makeEntry.
  cbn [Icns.IconEntry.OSType Icns.IconEntry.Length Icns.IconEntry.Data fst snd].
  now rewrite Ht, BigEndian_be32.
Qed.

Lemma StandardIconTypes_codes :
  Forall (fun t => copy4 (Icns.IconType.OSType t)
                   = list_byte_of_string (Icns.IconType.OSType t))
    Icns.StandardIconTypes.
Proof. repeat constructor. Qed.

Lemma length_entriesFor types : forall payloads,
  List.length payloads = List.length types ->
  List.length (entriesFor types payloads) = List.length types.
Proof.
  induction types as [|t types IH]; intros [|p payloads] H; try discriminate.
  - reflexivity.
  - cbn [entriesFor List.length]. f_equal. apply IH. cbn in H. lia.
Qed.

Lemma renderedTypes_sampleRaster :
  renderedTypes sampleRaster "icon.svg" Icns.StandardIconTypes
    (map (fun t => repeat Byte.x2a (Z.to_nat (Icns.IconType.Size t)))
       Icns.StandardIconTypes).
Proof. repeat constructor. Qed.

(** ** C8: the encoders are functions of the rasterizer's results *)

Lemma rasterize_ext {error : Type} (r1 r2 : string -> Z -> error + list byte)
    svgPath sizes : forall imageData,
  (forall size, In size sizes -> r1 svgPath size = r2 svgPath size) ->
  Ico.rasterize r1 svgPath sizes imageData = Ico.rasterize r2 svgPath sizes imageData.
Proof.
  induction sizes as [|s sizes IH]; intros imageData H; [reflexivity|].
  cbn [Ico.rasterize]. rewrite (H s (or_introl eq_refl)).
  destruct (r2 svgPath s) as [err|pngData]; [reflexivity|].
  apply IH. intros size Hs. apply H. now right.
Qed.

Lemma buildEntries_ext {error : Type} (r1 r2 : string -> Z -> error + list byte)
    svgPath types : forall entries,
  (forall t, In t types ->
     r1 svgPath (Icns.IconType.Size t) = r2 svgPath (Icns.IconType.Size t)) ->
  Icns.buildEntries r1 svgPath types entries = Icns.buildEntries r2 svgPath types entries.
Proof.
  induction types as [|t types IH]; intros entries H; [reflexivity|].
  cbn [Icns.buildEntries]. rewrite (H t (or_introl eq_refl)).
  destruct (r2 svgPath (Icns.IconType.Size t)) as [err|pngData]; [reflexivity|].
  apply IH. intros t' Ht'. apply H. now right.
Qed.

(** C8: two runs whose rasterizations give the same results for the source
    at every size of the table collect the same payloads, and CreateIco
    (CreateIcns) hands the same buffer to os.WriteFile and returns the
    same. *)
Theorem encode_deterministic {error FS : Type}
    (run1 run2 : string -> Z -> error + list byte)
    (WriteFile : string -> list byte -> FS -> option error * FS)
    (svgPath outputPath : string) (fs : FS) :
  (forall size, In size Ico.IconSizes -> run1 svgPath size = run2 svgPath size) ->
  (forall t, In t Icns.StandardIconTypes ->
     run1 svgPath (Icns.IconType.Size t) = run2 svgPath (Icns.IconType.Size t)) ->
  (Ico.rasterize run1 svgPath Ico.IconSizes []
   = Ico.rasterize run2 svgPath Ico.IconSizes [] /\
   Ico.CreateIco run1 WriteFile svgPath outputPath fs
   = Ico.CreateIco run2 WriteFile svgPath outputPath fs) /\
  (Icns.buildEntries run1 svgPath Icns.StandardIconTypes []
   = Icns.buildEntries run2 svgPath Icns.StandardIconTypes [] /\
   Icns.CreateIcns run1 WriteFile svgPath outputPath fs
   = Icns.CreateIcns run2 WriteFile svgPath outputPath fs).
Proof.
  intros Hico Hicns.
  pose proof (rasterize_ext run1 run2 svgPath Ico.IconSizes [] Hico) as H1.
  pose proof (buildEntries_ext run1 run2 svgPath Icns.StandardIconTypes [] Hicns) as H2.
  split; (split; [assumption|]).
  - unfold Ico.CreateIco, Ico.CreateIcoWith. now rewrite H1.
  - unfold Icns.CreateIcns, Icns.CreateIcnsWith. now rewrite H2.
Qed.

Lemma encode_deterministic_witness :
  Ico.CreateIco sampleRaster writeLast "icon.svg" "icon.ico" None
  = Ico.CreateIco sampleRasterAgain writeLast "icon.svg" "icon.ico" None /\
  Icns.CreateIcns sampleRaster writeLast "icon.svg" "icon.ico" None
  = Icns.CreateIcns sampleRasterAgain writeLast "icon.svg" "icon.ico" None.
Proof.
  assert (H : (forall size, In size Ico.IconSizes ->
                 sampleRaster "icon.svg" size = sampleRasterAgain "icon.svg" size) /\
              (forall t, In t Icns.StandardIconTypes ->
                 sampleRaster "icon.svg" (Icns.IconType.Size t)
                 = sampleRasterAgain "icon.svg" (Icns.IconType.Size t))).
  { split.
    - intros size Hs. cbn [Ico.IconSizes In] in Hs.
      repeat (destruct Hs as [<-|Hs]; [reflexivity|]). contradiction.
    - intros t Ht. cbn [Icns.StandardIconTypes In] in Ht.
      repeat (destruct Ht as [<-|Ht]; [reflexivity|]). contradiction. }
  destruct H as [Hico Hicns].
  destruct (encode_deterministic sampleRaster sampleRasterAgain writeLast
              "icon.svg" "icon.ico" None Hico Hicns) as [[_ H1] [_ H2]].
  split; assumption.
Defined.


(** ** C10: the sizes of the two containers *)

Lemma length_copy4 s : List.length (copy4 s) = 4%nat.
Proof.
  unfold copy4. rewrite length_firstn, length_app, repeat_length. lia.
Qed.

Lemma len_elementBytes_makeEntry t p :
  len (elementBytes (Icns.makeEntry t p)) = len p + 8.
Proof.
  unfold elementBytes, Icns.makeEntry, len.
  cbn [Icns.IconEntry.OSType Icns.IconEntry.Length Icns.IconEntry.Data].
  rewrite !length_app, length_copy4, length_rev, length_le_split. lia.
Qed.

Lemma len_icns_elements types : forall payloads,
  8 + len (concat (map elementBytes (entriesFor types payloads)))
  = icnsSize (entriesFor types payloads).
Proof.
  induction types as [|t types IH]; intros [|p payloads]; try reflexivity.
  cbn [entriesFor map concat]. rewrite icnsSize_cons, len_app, <- IH.
  rewrite len_elementBytes_makeEntry. cbn [Icns.makeEntry Icns.IconEntry.Data]. lia.
Qed.

Lemma len_icns_serialize types payloads :
  len (Icns.serialize (entriesFor types payloads))
  = icnsSize (entriesFor types payloads).
Proof.
  rewrite icns_serialize_layout, <- len_icns_elements, !len_app.
  change (len (list_byte_of_string "icns")) with 4.
  replace (len (rev (le_split 4 (Icns.totalSizeOf (entriesFor types payloads)))))
    with 4 by (unfold len; now rewrite length_rev, length_le_split).
  lia.
Qed.

Lemma len_icoBuffer sizes payloads :
  List.length payloads = List.length sizes ->
  len (icoBuffer sizes payloads) = 6 + 16 * len sizes + totalLen payloads.
Proof.
  intros Hlen. unfold icoBuffer.
  rewrite serialize_layout, !len_app, (len_concat payloads).
  assert (H2 : forall v, len (le_split 2 v) = 2)
    by (intros v; unfold len; now rewrite length_le_split).
  rewrite !H2. unfold len. rewrite length_directoryBytes.
  rewrite (length_layout _ _ _ Hlen). lia.
Qed.

Lemma icns_size_wrap (big : list byte) :
  len big = 2 ^ 32 ->
  exists entries,
    Icns.buildEntries (bigAt16 big) "icon.svg" Icns.StandardIconTypes [] = inr entries /\
    ~ icns_size_exact entries.
Proof.
  intros Hbig.
  exists (entriesFor Icns.StandardIconTypes (big :: repeat [] 10)).
  split; [reflexivity|]. intros [H _].
  rewrite len_icns_serialize, icns_totalSize_field in H.
  pose proof (Z.mod_pos_bound
                (8 + sumLengths (entriesFor Icns.StandardIconTypes (big :: repeat [] 10)))
                (2 ^ 32) ltac:(lia)) as Hfield.
  rewrite <- H in Hfield. cbn in Hfield. rewrite Hbig in Hfield.
  vm_compute in Hfield. destruct Hfield as [_ Hfield]. discriminate Hfield.
Qed.

(** C10, counterexample: with a 16-pixel payload of 2^32 bytes the ICNS
    buffer is 2^32 + 96 bytes long, which no total-size field can hold. *)
Lemma container_sizes_counterexample :
  exists entries,
    Icns.buildEntries (bigAt16 hugePayload) "icon.svg" Icns.StandardIconTypes []
    = inr entries /\
    ~ icns_size_exact entries.
Proof. exact (icns_size_wrap hugePayload len_hugePayload). Qed.

Lemma makeEntry_ImageOffset size pngData offset :
  Ico.ImageOffset (Ico.makeEntry size pngData offset) = offset.
Proof. unfold Ico.makeEntry. now destruct (size =? 256). Qed.

Lemma makeEntry_BytesInRes size pngData offset :
  Ico.BytesInRes (Ico.makeEntry size pngData offset) = uint32 (len pngData).
Proof. unfold Ico.makeEntry. now destruct (size =? 256). Qed.

Lemma ico_last_entry sizes imageData e :
  List.length imageData = List.length sizes ->
  6 + 16 * len sizes + totalLen imageData < 2 ^ 32 ->
  nth_error (layout sizes imageData (uint32 (6 + len sizes * 16)))
    (pred (List.length sizes)) = Some e ->
  Ico.ImageOffset e + Ico.BytesInRes e = 6 + 16 * len sizes + totalLen imageData.
Proof.
  intros Hlen Hbound He.
  assert (Hi : (pred (List.length sizes) < List.length sizes)%nat).
  { rewrite <- (length_layout sizes imageData (uint32 (6 + len sizes * 16)) Hlen) at 2.
    apply nth_error_Some. congruence. }
  destruct (nth_error sizes (pred (List.length sizes))) as [size|] eqn:Hs;
    [|apply nth_error_None in Hs; lia].
  destruct (nth_error imageData (pred (List.length sizes))) as [pngData|] eqn:Hp;
    [|apply nth_error_None in Hp; lia].
  rewrite (layout_nth _ _ _ _ _ _ Hs Hp) in He.
  apply (f_equal (fun o => match o with Some x => x | None => e end)) in He.
  subst e.
  pose proof (totalLen_firstn_S _ _ _ Hp) as HS.
  replace (S (pred (List.length sizes))) with (List.length imageData) in HS by lia.
  rewrite firstn_all in HS.
  pose proof (totalLen_nonneg (firstn (pred (List.length sizes)) imageData)).
  pose proof (len_nonneg pngData). pose proof (len_nonneg sizes).
  rewrite makeEntry_ImageOffset, makeEntry_BytesInRes.
  rewrite !uint32_small by lia. lia.
Qed.

(** C10, as amended: the ICNS buffer is 8 + (payload length + 8 for each
    entry) bytes long, and the ICO buffer 6 + 16*count + (payload lengths)
    bytes long, for every list of payloads; whenever that length is below
    2^32 it is the value of the ICNS total-size field and 8 plus the sum of
    the entry length fields, respectively the last ICO entry's ImageOffset
    plus its BytesInRes. *)
Theorem container_sizes {error : Type} (SvgToPng : string -> Z -> error + list byte)
    (svgPath : string) :
  (forall types entries,
     Icns.buildEntries SvgToPng svgPath types [] = inr entries ->
     len (Icns.serialize entries) = icnsSize entries /\
     (icnsSize entries < 2 ^ 32 -> icns_size_exact entries)) /\
  (forall sizes imageData,
     Ico.rasterize SvgToPng svgPath sizes [] = inr imageData ->
     Ico.encode sizes imageData = Some (icoBuffer sizes imageData) /\
     len (icoBuffer sizes imageData) = 6 + 16 * len sizes + totalLen imageData /\
     (6 + 16 * len sizes + totalLen imageData < 2 ^ 32 ->
      ico_size_exact sizes imageData)).
Proof.
  split.
  - intros types entries H.
    destruct (buildEntries_inr _ _ _ _ _ H) as (payloads & -> & _). cbn [app].
    split; [apply len_icns_serialize|]. intros Hbound.
    destruct (icns_lengths_exact_holds _ (icns_lengths_mod_holds types payloads) Hbound)
      as [Hexact Hfield].
    split; [|exact Hfield].
    rewrite Hfield, (sumLengths_exact _ Hexact). apply len_icns_serialize.
  - intros sizes imageData H.
    destruct (rasterize_inr _ _ _ _ _ H) as (payloads & -> & Hr). cbn [app].
    pose proof (rendered_length _ _ _ _ Hr) as Hlen.
    split; [exact (encode_rendered _ _ Hlen)|].
    split; [exact (len_icoBuffer _ _ Hlen)|]. intros Hbound.
    exists (layout sizes payloads (uint32 (6 + len sizes * 16))), (icoBuffer sizes payloads).
    split; [exact (entriesOf_layout _ _ Hlen)|].
    split; [exact (encode_rendered _ _ Hlen)|].
    split; [exact (len_icoBuffer _ _ Hlen)|].
    intros e He. rewrite (length_layout _ _ _ Hlen) in He.
    rewrite (ico_last_entry _ _ _ Hlen Hbound He). exact (len_icoBuffer _ _ Hlen).
Qed.

Lemma container_sizes_witness :
  (exists entries,
     Icns.buildEntries sampleRaster "icon.svg" Icns.StandardIconTypes [] = inr entries /\
     icns_size_exact entries) /\
  (exists imageData,
     Ico.rasterize sampleRaster "icon.svg" Ico.IconSizes [] = inr imageData /\
     ico_size_exact Ico.IconSizes imageData).
Proof.
  split.
  - eexists. split; [reflexivity|].
    apply (proj1 (container_sizes sampleRaster "icon.svg")
             Icns.StandardIconTypes _ eq_refl).
    vm_compute. reflexivity.
  - eexists. split; [reflexivity|].
    apply (proj2 (container_sizes sampleRaster "icon.svg")
             Ico.IconSizes _ eq_refl).
    vm_compute. reflexivity.
Defined.


(** ** C9: reading the containers back *)

Lemma firstn_exact {A : Type} (l r : list A) n :
  List.length l = n -> firstn n (l ++ r) = l.
Proof.
  intros <-. rewrite firstn_app, Nat.sub_diag, firstn_all. cbn [firstn].
  now rewrite app_nil_r.
Qed.

Lemma skipn_exact {A : Type} (l r : list A) n :
  List.length l = n -> skipn n (l ++ r) = r.
Proof.
  intros <-. rewrite skipn_app, Nat.sub_diag, skipn_all. reflexivity.
Qed.

Lemma readDirectory_records file entries : forall rest,
  Forall (readable file) entries ->
  Reader.readDirectory file (concat (map entryBytes entries) ++ rest)
    (List.length entries)
  = Some (map (imageOf file) entries).
Proof.
  induction entries as [|e es IH]; intros rest H; [reflexivity|].
  inversion H as [|? ? [Hfit Hin] Hes]; subst.
  cbn [map concat List.length Reader.readDirectory]. rewrite <- app_assoc.
  assert (Hlen : (len (entryBytes e ++ concat (map entryBytes es) ++ rest) <? 16) = false).
  { apply Z.ltb_ge. rewrite len_app.
    pose proof (len_nonneg (concat (map entryBytes es) ++ rest)).
    unfold len at 1. rewrite length_entryBytes. lia. }
  rewrite Hlen.
  rewrite (firstn_exact _ _ 16 (length_entryBytes e)).
  rewrite (skipn_exact _ _ 16 (length_entryBytes e)).
  rewrite <- (app_nil_r (entryBytes e)), Hfit.
  apply Z.leb_le in Hin. rewrite Hin, (IH _ Hes). reflexivity.
Qed.

(** Reading a serialized ICO file whose entries are all readable gives the
    image of each entry. *)
Lemma readIco_icoBuffer sizes payloads :
  List.length payloads = List.length sizes ->
  len sizes < 2 ^ 16 ->
  Forall (readable (icoBuffer sizes payloads))
    (layout sizes payloads (uint32 (6 + len sizes * 16))) ->
  Reader.readIco (icoBuffer sizes payloads)
  = Some (map (imageOf (icoBuffer sizes payloads))
            (layout sizes payloads (uint32 (6 + len sizes * 16)))).
Proof.
  intros Hlen Hcount Hread. unfold Reader.readIco.
  assert (H6 : (len (icoBuffer sizes payloads) <? 6) = false).
  { apply Z.ltb_ge. rewrite (len_icoBuffer _ _ Hlen).
    pose proof (len_nonneg sizes). pose proof (totalLen_nonneg payloads). lia. }
  rewrite H6. clear H6.
  set (file := icoBuffer sizes payloads) in *.
  assert (Hfile : file = le_split 2 0 ++ le_split 2 1
                         ++ le_split 2 (uint16 (len sizes))
                         ++ concat (map entryBytes
                              (layout sizes payloads (uint32 (6 + len sizes * 16))))
                         ++ concat payloads).
  { unfold file, icoBuffer. rewrite serialize_layout. now rewrite <- !app_assoc. }
  assert (H0 : LittleEndian.Uint16 file = 0).
  { rewrite Hfile. now rewrite LittleEndian_Uint16_Write16. }
  assert (H1 : LittleEndian.Uint16 (skipn 2 file) = 1).
  { rewrite Hfile. change (skipn 2 (le_split 2 0 ++ ?r)) with r.
    now rewrite LittleEndian_Uint16_Write16. }
  assert (Hc : LittleEndian.Uint16 (skipn 4 file) = len sizes).
  { rewrite Hfile. change (skipn 4 (le_split 2 0 ++ le_split 2 1 ++ ?r)) with r.
    rewrite LittleEndian_Uint16_Write16. unfold uint16.
    rewrite Z.mod_mod by lia. apply Z.mod_small.
    pose proof (len_nonneg sizes). lia. }
  assert (Hd : skipn 6 file
               = concat (map entryBytes
                   (layout sizes payloads (uint32 (6 + len sizes * 16))))
                 ++ concat payloads).
  { rewrite Hfile. reflexivity. }
  rewrite H0, H1, Hc, Hd. cbn [Z.eqb andb].
  replace (Z.to_nat (len sizes)) with (List.length sizes)
    by (unfold len; now rewrite Nat2Z.id).
  rewrite <- (length_layout sizes payloads (uint32 (6 + len sizes * 16)) Hlen) at 1.
  now apply readDirectory_records.
Qed.

Lemma layout_readable_fit sizes : forall payloads start,
  Forall (fun e => forall rest, Reader.parseEntry (entryBytes e ++ rest) = e)
    (layout sizes payloads (uint32 start)).
Proof.
  induction sizes as [|s sizes IH]; intros [|p payloads] start; cbn [layout];
    constructor.
  - intros rest. apply parseEntry_makeEntry.
  - rewrite uint32_add_l. apply IH.
Qed.

Lemma dimension_makeEntry size pngData offset :
  1 <= size <= 256 ->
  Reader.dimension (Ico.Width (Ico.makeEntry size pngData offset)) = size /\
  Reader.dimension (Ico.Height (Ico.makeEntry size pngData offset)) = size.
Proof.
  intros Hs. unfold Ico.makeEntry, Reader.dimension.
  destruct (size =? 256) eqn:E; cbn [Ico.Width Ico.Height].
  - apply Z.eqb_eq in E. subst size. split; reflexivity.
  - apply Z.eqb_neq in E. unfold uint8. rewrite Z.mod_small by lia.
    destruct (size =? 0) eqn:E0; [apply Z.eqb_eq in E0; lia|]. split; reflexivity.
Qed.

(** Without wrap-around every entry of the loop is readable in the file and
    its image is the size and the payload it was built from. *)
Lemma layout_images file base payloads :
  0 <= base ->
  base + totalLen payloads < 2 ^ 32 ->
  len file = base + totalLen payloads ->
  skipn (Z.to_nat base) file = concat payloads ->
  forall sizes done todo,
    payloads = done ++ todo ->
    List.length todo = List.length sizes ->
    Forall (fun size => 1 <= size <= 256) sizes ->
    Forall (readable file) (layout sizes todo (uint32 (base + totalLen done))) /\
    map (imageOf file) (layout sizes todo (uint32 (base + totalLen done)))
    = imagesOf sizes todo.
Proof.
  intros Hbase Hbound Hfile Hskip.
  induction sizes as [|s sizes IH]; intros done [|p todo] Hsplit Hlen Hsizes;
    try discriminate; cbn [layout imagesOf map]; [split; constructor|].
  inversion Hsizes as [|? ? Hs Hsizes']; subst.
  assert (Htotal : totalLen (done ++ p :: todo)
                   = totalLen done + len p + totalLen todo).
  { rewrite totalLen_app, totalLen_cons. lia. }
  pose proof (totalLen_nonneg done). pose proof (totalLen_nonneg todo).
  pose proof (len_nonneg p).
  rewrite uint32_add_l, uint32_add_r.
  replace (base + totalLen done + len p) with (base + totalLen (done ++ [p]))
    by (rewrite totalLen_app, totalLen_cons; change (totalLen []) with 0; lia).
  destruct (IH (done ++ [p]) todo) as [IHr IHi].
  { now rewrite <- app_assoc. }
  { cbn in Hlen. lia. }
  { exact Hsizes'. }
  assert (Hoff : uint32 (base + totalLen done) = base + totalLen done)
    by (apply uint32_small; lia).
  assert (Hbytes : uint32 (len p) = len p) by (apply uint32_small; lia).
  split.
  - constructor; [|exact IHr]. split.
    + intros rest. apply parseEntry_makeEntry.
    + rewrite makeEntry_ImageOffset, makeEntry_BytesInRes, Hoff, Hbytes, Hfile. lia.
  - rewrite IHi. f_equal. unfold imageOf.
    destruct (dimension_makeEntry s p (uint32 (base + totalLen done)) Hs) as [-> ->].
    f_equal.
    rewrite makeEntry_ImageOffset, makeEntry_BytesInRes, Hoff, Hbytes.
    rewrite Z2Nat.inj_add, Nat.add_comm, <- skipn_skipn, Hskip by lia.
    rewrite concat_app. cbn [concat].
    rewrite skipn_exact
      by (rewrite <- len_concat; unfold len; now rewrite Nat2Z.id).
    apply firstn_exact. unfold len. now rewrite Nat2Z.id.
Qed.

Lemma skipn_icoBuffer sizes payloads :
  List.length payloads = List.length sizes ->
  skipn (Z.to_nat (6 + 16 * len sizes)) (icoBuffer sizes payloads) = concat payloads.
Proof.
  intros Hlen. unfold icoBuffer. rewrite serialize_layout, app_assoc.
  apply skipn_exact.
  rewrite !length_app, !length_le_split, length_directoryBytes.
  rewrite (length_layout _ _ _ Hlen). unfold len. lia.
Qed.

Lemma readIco_no_wrap sizes payloads :
  List.length payloads = List.length sizes ->
  Forall (fun size => 1 <= size <= 256) sizes ->
  len sizes < 2 ^ 16 ->
  6 + 16 * len sizes + totalLen payloads < 2 ^ 32 ->
  Reader.readIco (icoBuffer sizes payloads) = Some (imagesOf sizes payloads).
Proof.
  intros Hlen Hsizes Hcount Hbound.
  destruct (layout_images (icoBuffer sizes payloads) (6 + 16 * len sizes) payloads
              ltac:(pose proof (len_nonneg sizes); lia) Hbound
              (len_icoBuffer _ _ Hlen) (skipn_icoBuffer _ _ Hlen)
              sizes [] payloads eq_refl Hlen Hsizes) as [Hread Himages].
  change (totalLen []) with 0 in Hread, Himages.
  replace (6 + 16 * len sizes + 0) with (6 + len sizes * 16) in Hread, Himages by lia.
  rewrite (readIco_icoBuffer _ _ Hlen Hcount Hread). now rewrite Himages.
Qed.

Lemma ico_roundtrip_wrap (big : list byte) :
  len big = 2 ^ 32 ->
  ~ ico_roundtrip_exact [big; []; []; []; []; []; []].
Proof.
  intros Hbig (buffer & Hencode & Hread).
  rewrite (encode_rendered Ico.IconSizes [big; []; []; []; []; []; []] eq_refl)
    in Hencode.
  apply (f_equal (fun o => match o with Some b => b | None => buffer end)) in Hencode.
  subst buffer.
  rewrite (readIco_icoBuffer Ico.IconSizes [big; []; []; []; []; []; []] eq_refl)
    in Hread.
  - apply (f_equal (fun o => match o with
                             | Some (image :: _) => len (Reader.payload image)
                             | _ => 0
                             end)) in Hread.
    cbn [Ico.IconSizes layout map imagesOf imageOf Reader.payload] in Hread.
    rewrite makeEntry_BytesInRes, Hbig in Hread.
    change (Z.to_nat (uint32 (2 ^ 32))) with 0%nat in Hread.
    cbn [firstn] in Hread. discriminate Hread.
  - reflexivity.
  - assert (Hfile : len (icoBuffer Ico.IconSizes [big; []; []; []; []; []; []])
                    = 118 + 2 ^ 32).
    { rewrite (len_icoBuffer Ico.IconSizes [big; []; []; []; []; []; []] eq_refl).
      cbn. rewrite Hbig. reflexivity. }
    apply Forall_forall. intros e He. split.
    + pose proof (layout_readable_fit Ico.IconSizes
                    [big; []; []; []; []; []; []] (6 + len Ico.IconSizes * 16)) as Hfit.
      rewrite Forall_forall in Hfit. now apply Hfit.
    + rewrite Hfile. cbn [Ico.IconSizes layout In] in He.
      rewrite Hbig in He.
      repeat (destruct He as [<-|He];
              [rewrite makeEntry_ImageOffset, makeEntry_BytesInRes, ?Hbig;
               vm_compute; discriminate|]).
      contradiction.
Qed.

(** C9, counterexample: with a first payload of 2^32 bytes the directory
    gives the first image 0 bytes, and the reader recovers an empty payload
    instead of the one that went in. *)
Lemma containers_round_trip_counterexample :
  ~ ico_roundtrip_exact [hugePayload; []; []; []; []; []; []].
Proof. exact (ico_roundtrip_wrap hugePayload len_hugePayload). Qed.

Lemma readElements_nonempty fuel data :
  data <> [] ->
  Reader.readElements (S fuel) data
  = let length := BigEndian.Uint32 (skipn 4 data) in
    if (len data <? 8) || (length <? 8) || (len data <? length) then None
    else
      match Reader.readElements fuel (skipn (Z.to_nat length) data) with
      | None => None
      | Some elements =>
          Some ((firstn 4 data, firstn (Z.to_nat (length - 8)) (skipn 8 data))
                :: elements)
      end.
Proof. destruct data; [contradiction | reflexivity]. Qed.

Lemma length_elementBytes e :
  wellSized e ->
  List.length (elementBytes e) = Z.to_nat (Icns.IconEntry.Length e).
Proof.
  intros (Hcode & Hlength & _). unfold elementBytes.
  rewrite !length_app, Hcode, length_rev, length_le_split, Hlength.
  unfold len. lia.
Qed.

Lemma readElements_entries entries : forall fuel,
  (List.length entries <= fuel)%nat ->
  Forall wellSized entries ->
  Reader.readElements fuel (concat (map elementBytes entries))
  = Some (map (fun e => (Icns.IconEntry.OSType e, Icns.IconEntry.Data e)) entries).
Proof.
  induction entries as [|e es IH]; intros fuel Hfuel H.
  - destruct fuel; reflexivity.
  - inversion H as [|? ? He Hes]; subst.
    destruct fuel as [|fuel]; [cbn in Hfuel; lia|].
    cbn [map concat]. set (tail := concat (map elementBytes es)).
    pose proof (length_elementBytes e He) as Hbytes.
    destruct He as (Hcode & Hlength & Hsmall).
    pose proof (len_nonneg (Icns.IconEntry.Data e)) as Hdata.
    assert (Hne : elementBytes e ++ tail <> []).
    { intros Hnil. apply (f_equal (@List.length byte)) in Hnil.
      rewrite length_app, Hbytes in Hnil. cbn [List.length] in Hnil. lia. }
    rewrite (readElements_nonempty _ _ Hne). cbv zeta.
    assert (Hfield : BigEndian.Uint32 (skipn 4 (elementBytes e ++ tail))
                     = Icns.IconEntry.Length e).
    { unfold elementBytes. rewrite <- !app_assoc, (skipn_exact _ _ 4 Hcode).
      rewrite BigEndian_Uint32_Write32. apply Z.mod_small. lia. }
    rewrite Hfield.
    assert (Hlen : len (elementBytes e ++ tail) = Icns.IconEntry.Length e + len tail).
    { rewrite len_app. unfold len at 1. rewrite Hbytes. lia. }
    pose proof (len_nonneg tail) as Htail.
    replace (len (elementBytes e ++ tail) <? 8) with false
      by (symmetry; apply Z.ltb_ge; lia).
    replace (Icns.IconEntry.Length e <? 8) with false
      by (symmetry; apply Z.ltb_ge; lia).
    replace (len (elementBytes e ++ tail) <? Icns.IconEntry.Length e) with false
      by (symmetry; apply Z.ltb_ge; lia).
    cbn [orb].
    rewrite (skipn_exact _ _ _ Hbytes).
    unfold tail. rewrite (IH fuel ltac:(cbn in Hfuel; lia) Hes). fold tail.
    cbn [map]. do 3 f_equal.
    + unfold elementBytes. rewrite <- !app_assoc. exact (firstn_exact _ _ 4 Hcode).
    + unfold elementBytes.
      replace ((Icns.IconEntry.OSType e
                ++ rev (le_split 4 (Icns.IconEntry.Length e))
                ++ Icns.IconEntry.Data e) ++ tail)
        with ((Icns.IconEntry.OSType e ++ rev (le_split 4 (Icns.IconEntry.Length e)))
              ++ Icns.IconEntry.Data e ++ tail)
        by now rewrite <- !app_assoc.
      rewrite skipn_exact
        by (rewrite length_app, Hcode, length_rev, length_le_split; reflexivity).
      apply firstn_exact. rewrite Hlength. unfold len. lia.
Qed.

Lemma len_wellSized_elements entries :
  Forall wellSized entries ->
  8 + len (concat (map elementBytes entries)) = icnsSize entries /\
  (List.length entries <= List.length (concat (map elementBytes entries)))%nat.
Proof.
  induction 1 as [|e es He _ [IHlen IHcount]]; [split; reflexivity|].
  cbn [map concat]. rewrite icnsSize_cons, len_app, length_app. unfold len at 1.
  rewrite (length_elementBytes e He).
  destruct He as (_ & Hlength & _). pose proof (len_nonneg (Icns.IconEntry.Data e)).
  cbn [List.length]. split; lia.
Qed.

Lemma readIcns_serialize entries :
  Forall wellSized entries ->
  icnsSize entries < 2 ^ 32 ->
  Reader.readIcns (Icns.serialize entries)
  = Some (map (fun e => (Icns.IconEntry.OSType e, Icns.IconEntry.Data e)) entries).
Proof.
  intros Hwell Hbound.
  destruct (len_wellSized_elements entries Hwell) as [Hsize Hcount].
  assert (Hexact : Forall (fun e => Icns.IconEntry.Length e
                                    = len (Icns.IconEntry.Data e) + 8) entries).
  { eapply Forall_impl; [|exact Hwell]. now intros e (_ & He & _). }
  assert (Htotal : Icns.totalSizeOf entries = icnsSize entries).
  { rewrite totalSizeOf_mod, (sumLengths_exact _ Hexact).
    apply Z.mod_small. pose proof (icnsSize_lower entries). lia. }
  set (body := concat (map elementBytes entries)) in *.
  assert (Hfile : Icns.serialize entries
                  = (list_byte_of_string "icns" ++ rev (le_split 4 (icnsSize entries)))
                    ++ body).
  { rewrite icns_serialize_layout, Htotal. now rewrite <- app_assoc. }
  pose proof (len_nonneg body) as Hbody.
  assert (Hlen : len (Icns.serialize entries) = icnsSize entries).
  { rewrite Hfile, len_app. unfold len at 1.
    rewrite length_app, length_rev, length_le_split. cbn [List.length list_byte_of_string].
    change (Z.of_nat (List.length (list_byte_of_string "icns") + 4)) with 8. lia. }
  unfold Reader.readIcns. rewrite Hlen.
  replace (icnsSize entries <? 8) with false by (symmetry; apply Z.ltb_ge; lia).
  assert (Hmagic : firstn 4 (Icns.serialize entries) = list_byte_of_string "icns").
  { rewrite Hfile, <- app_assoc. now apply firstn_exact. }
  rewrite Hmagic.
  destruct (list_eq_dec Byte.byte_eq_dec (list_byte_of_string "icns")
              (list_byte_of_string "icns")) as [_|Hne]; [|contradiction].
  assert (Hfield : BigEndian.Uint32 (skipn 4 (Icns.serialize entries))
                   = icnsSize entries).
  { rewrite Hfile, <- app_assoc.
    change (skipn 4 (list_byte_of_string "icns" ++ ?r)) with r.
    rewrite BigEndian_Uint32_Write32. apply Z.mod_small.
    pose proof (icnsSize_lower entries). lia. }
  rewrite Hfield. cbv zeta.
  replace (icnsSize entries <? 8) with false by (symmetry; apply Z.ltb_ge; lia).
  rewrite Z.ltb_irrefl. cbn [orb].
  assert (Hskip : skipn 8 (Icns.serialize entries) = body).
  { rewrite Hfile. apply skipn_exact.
    now rewrite length_app, length_rev, length_le_split. }
  rewrite Hskip.
  replace (Z.to_nat (icnsSize entries - 8)) with (List.length body)
    by (unfold len in Hsize; lia).
  rewrite firstn_all. now apply readElements_entries.
Qed.

Lemma wellSized_entriesFor types payloads :
  icnsSize (entriesFor types payloads) < 2 ^ 32 ->
  Forall wellSized (entriesFor types payloads).
Proof.
  intros Hbound.
  destruct (icns_lengths_exact_holds _ (icns_lengths_mod_holds types payloads) Hbound)
    as [Hexact _].
  assert (Hmade : Forall (fun e => List.length (Icns.IconEntry.OSType e) = 4%nat /\
                                   Icns.IconEntry.Length e < 2 ^ 32)
                    (entriesFor types payloads)).
  { apply Forall_entriesFor. intros t p. split.
    - apply length_copy4.
    - apply uint32_range. }
  rewrite Forall_forall in *. intros e He.
  destruct (Hmade e He) as [Hcode Hsmall]. repeat split; auto.
Qed.

Lemma elements_entriesFor types : forall payloads,
  Forall (fun t => copy4 (Icns.IconType.OSType t)
                   = list_byte_of_string (Icns.IconType.OSType t)) types ->
  map (fun e => (Icns.IconEntry.OSType e, Icns.IconEntry.Data e))
    (entriesFor types payloads)
  = elementsOf types payloads.
Proof.
  induction types as [|t types IH]; intros [|p payloads] H; try reflexivity.
  inversion H as [|? ? Ht Hts]; subst.
  cbn [entriesFor elementsOf map]. rewrite (IH _ Hts). f_equal.
  unfold Icns.makeEntry. cbn [Icns.IconEntry.OSType Icns.IconEntry.Data].
  now rewrite Ht.
Qed.

(** C9, as amended: read back with a reader of the layout, the buffer
    CreateIco builds from seven payloads gives seven images with the sizes
    16..256 and the payloads that went in, provided 6 + 16*7 + (payload
    lengths) is below 2^32; the buffer CreateIcns builds gives the eleven
    type codes and the payloads that went in, provided 8 + (payload length +
    8 each) is below 2^32. *)
Theorem containers_round_trip {error : Type}
    (SvgToPng : string -> Z -> error + list byte) (svgPath : string) :
  (forall payloads,
     rendered SvgToPng svgPath Ico.IconSizes payloads ->
     6 + 16 * len Ico.IconSizes + totalLen payloads < 2 ^ 32 ->
     ico_roundtrip_exact payloads /\
     List.length (imagesOf Ico.IconSizes payloads) = 7%nat) /\
  (forall payloads entries,
     renderedTypes SvgToPng svgPath Icns.StandardIconTypes payloads ->
     Icns.buildEntries SvgToPng svgPath Icns.StandardIconTypes [] = inr entries ->
     icnsSize entries < 2 ^ 32 ->
     Reader.readIcns (Icns.serialize entries)
     = Some (elementsOf Icns.StandardIconTypes payloads) /\
     List.length (elementsOf Icns.StandardIconTypes payloads) = 11%nat).
Proof.
  split.
  - intros payloads Hr Hbound. pose proof (rendered_length _ _ _ _ Hr) as Hlen.
    split.
    + exists (icoBuffer Ico.IconSizes payloads).
      split; [exact (encode_rendered _ _ Hlen)|].
      apply readIco_no_wrap; [exact Hlen| |reflexivity|exact Hbound].
      repeat constructor; discriminate.
    + do 8 (destruct payloads as [|? payloads]; try discriminate Hlen). reflexivity.
  - intros payloads entries Hr Hbuild Hbound.
    rewrite (buildEntries_rendered _ _ _ [] _ Hr) in Hbuild. cbn [app] in Hbuild.
    apply (f_equal (fun r => match r with inr es => es | inl _ => entries end)) in Hbuild.
    subst entries. split.
    + rewrite (readIcns_serialize _ (wellSized_entriesFor _ _ Hbound) Hbound).
      now rewrite (elements_entriesFor _ _ StandardIconTypes_codes).
    + pose proof (Forall2_length Hr) as Hlen.
      do 12 (destruct payloads as [|? payloads]; try discriminate Hlen). reflexivity.
Qed.

Lemma containers_round_trip_witness :
  ico_roundtrip_exact
    (map (fun size => repeat Byte.x2a (Z.to_nat size)) Ico.IconSizes) /\
  exists entries,
    Icns.buildEntries sampleRaster "icon.svg" Icns.StandardIconTypes [] = inr entries /\
    Reader.readIcns (Icns.serialize entries)
    = Some (elementsOf Icns.StandardIconTypes
              (map (fun t => repeat Byte.x2a (Z.to_nat (Icns.IconType.Size t)))
                 Icns.StandardIconTypes)).
Proof.
  split.
  - apply (proj1 (containers_round_trip sampleRaster "icon.svg") _
             rendered_sampleRaster).
    vm_compute. reflexivity.
  - eexists. split; [reflexivity|].
    apply (proj2 (containers_round_trip sampleRaster "icon.svg") _ _
             renderedTypes_sampleRaster eq_refl).
    vm_compute. reflexivity.
Defined.


(** ** C6: the ICNS buffer and its total-size field *)

Lemma sumLengths_entriesFor_mod types : forall payloads start,
  List.length payloads = List.length types ->
  (start + sumLengths (entriesFor types payloads)) mod 2 ^ 32
  = (start + Z.of_nat (elementsLength payloads)) mod 2 ^ 32.
Proof.
  induction types as [|t types IH]; intros [|p payloads] start Hlen;
    try discriminate; [reflexivity|].
  cbn [entriesFor elementsLength].
  change (sumLengths (Icns.makeEntry t p :: entriesFor types payloads))
    with (uint32 (len p + 8) + sumLengths (entriesFor types payloads)).
  rewrite Z.add_assoc, (IH payloads (start + uint32 (len p + 8)))
    by (cbn in Hlen; lia).
  replace (start + uint32 (len p + 8) + Z.of_nat (elementsLength payloads))
    with (uint32 (len p + 8) + (start + Z.of_nat (elementsLength payloads))) by lia.
  unfold uint32. rewrite Zplus_mod_idemp_l. f_equal. unfold len. lia.
Qed.

Lemma icnsSize_entriesFor types : forall payloads,
  List.length payloads = List.length types ->
  icnsSize (entriesFor types payloads) = Z.of_nat (8 + elementsLength payloads).
Proof.
  induction types as [|t types IH]; intros [|p payloads] Hlen; try discriminate;
    [reflexivity|].
  cbn [entriesFor elementsLength]. rewrite icnsSize_cons, IH by (cbn in Hlen; lia).
  cbn [Icns.makeEntry Icns.IconEntry.Data]. unfold len. lia.
Qed.

(** The buffer of a table and its payloads, written out: the magic, the
    total size modulo 2^32, the elements. *)
Lemma icnsBuffer_layout types payloads :
  List.length payloads = List.length types ->
  Forall (fun t => copy4 (Icns.IconType.OSType t)
                   = list_byte_of_string (Icns.IconType.OSType t)) types ->
  icnsBuffer types payloads
  = list_byte_of_string "icns"
    ++ be32 (Z.of_nat (8 + elementsLength payloads) mod 2 ^ 32)
    ++ concat (map icnsElement (combine types payloads)).
Proof.
  intros Hlen Hcodes. unfold icnsBuffer.
  rewrite icns_serialize_layout, BigEndian_be32, totalSizeOf_mod.
  rewrite (sumLengths_entriesFor_mod _ _ 8 Hlen).
  rewrite (elements_of_entriesFor _ _ Hcodes).
  do 3 f_equal. lia.
Qed.

Lemma icns_total_wrap (big : list byte) :
  len big = 2 ^ 32 ->
  exists entries,
    Icns.buildEntries (bigAt16 big) "icon.svg" Icns.StandardIconTypes [] = inr entries /\
    ~ icns_total_field_exact (Icns.serialize entries).
Proof.
  intros Hbig.
  exists (entriesFor Icns.StandardIconTypes (big :: repeat [] 10)).
  split; [reflexivity|]. unfold icns_total_field_exact. intros H.
  rewrite len_icns_serialize, icns_totalSize_field in H.
  pose proof (Z.mod_pos_bound
                (8 + sumLengths (entriesFor Icns.StandardIconTypes (big :: repeat [] 10)))
                (2 ^ 32) ltac:(lia)) as Hfield.
  rewrite H in Hfield. cbn in Hfield. rewrite Hbig in Hfield.
  vm_compute in Hfield. destruct Hfield as [_ Hfield]. discriminate Hfield.
Qed.

(** C6, counterexample: with a 16-pixel payload of 2^32 bytes the buffer is
    2^32 + 96 bytes long and the 4 bytes after the magic read 96, not the
    total size. *)
Lemma icns_layout_counterexample :
  exists entries,
    Icns.buildEntries (bigAt16 hugePayload) "icon.svg" Icns.StandardIconTypes []
    = inr entries /\
    ~ icns_total_field_exact (Icns.serialize entries).
Proof. exact (icns_total_wrap hugePayload len_hugePayload). Qed.

(** C6, as amended: when the eleven rasterizations succeed, the buffer
    CreateIcns writes is the 4 bytes "icns", then 4 big-endian bytes holding
    the total size of the buffer, 8 + (payload length + 8 for each entry),
    modulo 2^32, then for each entry of the table, in table order, its type
    code as it stands, 4 big-endian bytes holding its payload's length + 8
    modulo 2^32 and its payload, with nothing in between; the buffer is as
    long as that total, which the 4 bytes after the magic therefore hold
    exactly whenever it is below 2^32. *)
Theorem icns_layout {error FS : Type}
    (SvgToPng : string -> Z -> error + list byte)
    (WriteFile : string -> list byte -> FS -> option error * FS)
    (svgPath outputPath : string) (fs : FS) (payloads : list (list byte)) :
  renderedTypes SvgToPng svgPath Icns.StandardIconTypes payloads ->
  let total := Z.of_nat (8 + elementsLength payloads) in
  let buffer :=
    list_byte_of_string "icns" ++ be32 (total mod 2 ^ 32)
    ++ concat (map icnsElement (combine Icns.StandardIconTypes payloads)) in
  List.length payloads = 11%nat /\
  List.length (entriesFor Icns.StandardIconTypes payloads) = 11%nat /\
  Icns.buildEntries SvgToPng svgPath Icns.StandardIconTypes []
  = inr (entriesFor Icns.StandardIconTypes payloads) /\
  Icns.serialize (entriesFor Icns.StandardIconTypes payloads) = buffer /\
  Icns.CreateIcns SvgToPng WriteFile svgPath outputPath fs
  = Returned (fst (WriteFile outputPath buffer fs))
             (snd (WriteFile outputPath buffer fs)) /\
  len buffer = total /\
  BigEndian.Uint32 (skipn 4 buffer) = total mod 2 ^ 32 /\
  (total < 2 ^ 32 -> icns_total_field_exact buffer) /\
  (forall v rest, BigEndian.Uint32 (be32 v ++ rest) = v mod 2 ^ 32).
Proof.
  intros Hr. cbv zeta.
  assert (Hlen : List.length payloads = List.length Icns.StandardIconTypes).
  { symmetry. exact (Forall2_length Hr). }
  pose proof (icnsBuffer_layout _ _ Hlen StandardIconTypes_codes) as Hbuf.
  unfold icnsBuffer in Hbuf.
  assert (Hdecode : forall v rest, BigEndian.Uint32 (be32 v ++ rest) = v mod 2 ^ 32).
  { intros v rest. rewrite <- BigEndian_be32. apply BigEndian_Uint32_Write32. }
  assert (Hsize : len (Icns.serialize (entriesFor Icns.StandardIconTypes payloads))
                  = Z.of_nat (8 + elementsLength payloads)).
  { rewrite len_icns_serialize. exact (icnsSize_entriesFor _ _ Hlen). }
  assert (Hfield : BigEndian.Uint32
                     (skipn 4 (Icns.serialize (entriesFor Icns.StandardIconTypes payloads)))
                   = Z.of_nat (8 + elementsLength payloads) mod 2 ^ 32).
  { rewrite Hbuf.
    change (skipn 4 (list_byte_of_string "icns" ++ ?r)) with r.
    rewrite Hdecode. apply Z.mod_mod. lia. }
  rewrite <- Hbuf.
  split; [exact Hlen|].
  split; [exact (length_entriesFor Icns.StandardIconTypes _ Hlen)|].
  split; [exact (buildEntries_rendered _ _ _ [] _ Hr)|].
  split; [reflexivity|]. split.
  - unfold Icns.CreateIcns. exact (CreateIcnsWith_rendered _ _ _ _ _ _ _ Hr).
  - split; [exact Hsize|]. split; [exact Hfield|]. split; [|exact Hdecode].
    intros Hbound. unfold icns_total_field_exact. rewrite Hfield, Hsize.
    apply Z.mod_small. lia.
Qed.

Lemma icns_layout_witness :
  exists buffer,
    firstn 8 buffer
    = [Byte.x69; Byte.x63; Byte.x6e; Byte.x73;
       Byte.x00; Byte.x00; Byte.x0b; Byte.xb0] /\
    len buffer = 2992 /\
    Icns.CreateIcns sampleRaster writeLast "icon.svg" "icon.icns" None
    = Returned None (Some ("icon.icns"%string, buffer)).
Proof.
  destruct (icns_layout sampleRaster writeLast "icon.svg" "icon.icns" None
              _ renderedTypes_sampleRaster) as (_ & _ & _ & _ & H & Hsize & _).
  eexists. split; [|split; [exact Hsize|exact H]]. reflexivity.
Defined.

(** * Further properties of the encoders *)

(** ** Every outcome of CreateIco and CreateIcns *)

Lemma rendered_In {error : Type} (SvgToPng : string -> Z -> error + list byte)
    svgPath sizes payloads :
  rendered SvgToPng svgPath sizes payloads ->
  forall s, In s sizes -> exists pngData, SvgToPng svgPath s = inr pngData.
Proof.
  induction 1 as [|s p sizes payloads Hs _ IH]; intros s' Hin; [contradiction|].
  destruct Hin as [<-|Hin]; [now exists p | now apply IH].
Qed.

Lemma renderedTypes_In {error : Type} (SvgToPng : string -> Z -> error + list byte)
    svgPath types payloads :
  renderedTypes SvgToPng svgPath types payloads ->
  forall t, In t types ->
    exists pngData, SvgToPng svgPath (Icns.IconType.Size t) = inr pngData.
Proof.
  induction 1 as [|t p types payloads Ht _ IH]; intros t' Hin; [contradiction|].
  destruct Hin as [<-|Hin]; [now exists p | now apply IH].
Qed.

Lemma rasterization_cases {error : Type} (SvgToPng : string -> Z -> error + list byte)
    svgPath sizes :
  (exists done size cause, firstFailure SvgToPng svgPath sizes done size cause) \/
  (exists payloads, rendered SvgToPng svgPath sizes payloads).
Proof.
  induction sizes as [|s sizes IH].
  - right. exists []. constructor.
  - destruct (SvgToPng svgPath s) as [cause|pngData] eqn:E.
    + left. exists [], s, cause, sizes, []. repeat split; [constructor | exact E].
    + destruct IH as [(done & size & cause & rest & payloads & -> & Hr & Hf)
                     |(payloads & Hr)].
      * left. exists (s :: done), size, cause, rest, (pngData :: payloads).
        repeat split; [constructor; assumption | exact Hf].
      * right. exists (pngData :: payloads). constructor; assumption.
Qed.

Lemma type_rasterization_cases {error : Type}
    (SvgToPng : string -> Z -> error + list byte) svgPath types :
  (exists done iconType cause,
     firstTypeFailure SvgToPng svgPath types done iconType cause) \/
  (exists payloads, renderedTypes SvgToPng svgPath types payloads).
Proof.
  induction types as [|t types IH].
  - right. exists []. constructor.
  - destruct (SvgToPng svgPath (Icns.IconType.Size t)) as [cause|pngData] eqn:E.
    + left. exists [], t, cause, types, []. repeat split; [constructor | exact E].
    + destruct IH as [(done & iconType & cause & rest & payloads & -> & Hr & Hf)
                     |(payloads & Hr)].
      * left. exists (t :: done), iconType, cause, rest, (pngData :: payloads).
        repeat split; [constructor; assumption | exact Hf].
      * right. exists (pngData :: payloads). constructor; assumption.
Qed.

(** X1: whatever the size list, the rasterizer and os.WriteFile, a call of
    CreateIco comes to one of two ends and never to the panic of
    [imageData[i]] out of range: either some size is the first to fail and
    the call returns its error with the file system untouched, or every size
    was rendered and the call returns what os.WriteFile returns for the
    output path and the buffer of these payloads. *)
Theorem CreateIco_outcomes {error FS : Type}
    (SvgToPng : string -> Z -> error + list byte)
    (WriteFile : string -> list byte -> FS -> option error * FS)
    (sizes : list Z) (svgPath outputPath : string) (fs : FS) :
  Ico.CreateIcoWith SvgToPng WriteFile sizes svgPath outputPath fs <> Panicked /\
  ((exists done size cause,
      firstFailure SvgToPng svgPath sizes done size cause /\
      Ico.CreateIcoWith SvgToPng WriteFile sizes svgPath outputPath fs
      = Returned (Some cause) fs) \/
   (exists payloads,
      rendered SvgToPng svgPath sizes payloads /\
      Ico.encode sizes payloads = Some (icoBuffer sizes payloads) /\
      Ico.CreateIcoWith SvgToPng WriteFile sizes svgPath outputPath fs
      = Returned (fst (WriteFile outputPath (icoBuffer sizes payloads) fs))
                 (snd (WriteFile outputPath (icoBuffer sizes payloads) fs)))).
Proof.
  split; [apply CreateIcoWith_no_panic|].
  destruct (rasterization_cases SvgToPng svgPath sizes)
    as [(done & size & cause & Hfail)|(payloads & Hr)].
  - left. exists done, size, cause. split; [exact Hfail|].
    destruct Hfail as (rest & payloads & -> & Hr & Hf).
    unfold Ico.CreateIcoWith.
    now rewrite (rasterize_first_failure _ _ _ _ _ _ []
                   (rendered_In _ _ _ _ Hr) Hf).
  - right. exists payloads. split; [exact Hr|].
    split; [exact (encode_rendered _ _ (rendered_length _ _ _ _ Hr))|].
    now apply CreateIcoWith_rendered.
Qed.

(** X2: whatever the table of icon types, the rasterizer and os.WriteFile, a
    call of CreateIcns either returns the error of the first icon type whose
    rasterization fails, with the file system untouched, or, every type
    rendered, returns what os.WriteFile returns for the output path and the
    buffer of these payloads. *)
Theorem CreateIcns_outcomes {error FS : Type}
    (SvgToPng : string -> Z -> error + list byte)
    (WriteFile : string -> list byte -> FS -> option error * FS)
    (types : list Icns.IconType.t) (svgPath outputPath : string) (fs : FS) :
  (exists done iconType cause,
     firstTypeFailure SvgToPng svgPath types done iconType cause /\
     Icns.CreateIcnsWith SvgToPng WriteFile types svgPath outputPath fs
     = Returned (Some cause) fs) \/
  (exists payloads,
     renderedTypes SvgToPng svgPath types payloads /\
     Icns.buildEntries SvgToPng svgPath types [] = inr (entriesFor types payloads) /\
     Icns.CreateIcnsWith SvgToPng WriteFile types svgPath outputPath fs
     = Returned (fst (WriteFile outputPath (icnsBuffer types payloads) fs))
                (snd (WriteFile outputPath (icnsBuffer types payloads) fs))).
Proof.
  destruct (type_rasterization_cases SvgToPng svgPath types)
    as [(done & iconType & cause & Hfail)|(payloads & Hr)].
  - left. exists done, iconType, cause. split; [exact Hfail|].
    destruct Hfail as (rest & payloads & -> & Hr & Hf).
    unfold Icns.CreateIcnsWith.
    now rewrite (buildEntries_first_failure _ _ _ _ _ _ []
                   (renderedTypes_In _ _ _ _ Hr) Hf).
  - right. exists payloads. split; [exact Hr|].
    split; [exact (buildEntries_rendered _ _ _ [] _ Hr)|].
    now apply CreateIcnsWith_rendered.
Qed.

(** ** The directory records of an ICO file, for any size list *)

Lemma icoBuffer_record sizes payloads i e :
  nth_error (layout sizes payloads (uint32 (6 + len sizes * 16))) i = Some e ->
  firstn 16 (skipn (6 + 16 * i) (icoBuffer sizes payloads)) = entryBytes e.
Proof.
  intros He. unfold icoBuffer. rewrite serialize_layout.
  rewrite Nat.add_comm, <- skipn_skipn.
  rewrite (skipn_exact _ _ 6)
    by (now rewrite !length_app, !length_le_split).
  rewrite skipn_app, skipn_records, (nth_error_skipn_cons _ _ _ He).
  cbn [map concat]. rewrite <- app_assoc.
  exact (firstn_exact _ _ 16 (length_entryBytes e)).
Qed.

Lemma LittleEndian_le32 v : le_split 4 v = le32 v.
Proof.
  unfold le32. cbv [le_split].
  rewrite !Z.shiftr_shiftr by lia. reflexivity.
Qed.

Lemma makeEntry_dimension_mod size pngData offset :
  Ico.Width (Ico.makeEntry size pngData offset) = size mod 256 /\
  Ico.Height (Ico.makeEntry size pngData offset) = size mod 256.
Proof.
  unfold Ico.makeEntry, uint8. change (2 ^ 8) with 256.
  destruct (size =? 256) eqn:E; cbn [Ico.Width Ico.Height].
  - apply Z.eqb_eq in E. subst size. split; reflexivity.
  - split; reflexivity.
Qed.

(** X3: in the file of any size list, the 16-byte directory record of size
    [i] is: the size modulo 256 twice (width and height), the bytes
    00 00 01 00 20 00 (colour count 0, reserved 0, 1 plane, 32 bits per
    pixel), the length of payload [i] modulo 2^32 as 4 little-endian bytes,
    and the position 6 + 16*count + (lengths of the payloads before it)
    modulo 2^32 as 4 little-endian bytes, in this order. *)
Theorem ico_record_constants (sizes : list Z) (payloads : list (list byte))
    (i : nat) (size : Z) (pngData : list byte) :
  List.length payloads = List.length sizes ->
  nth_error sizes i = Some size ->
  nth_error payloads i = Some pngData ->
  let position := 6 + 16 * len sizes + totalLen (firstn i payloads) in
  firstn 16 (skipn (6 + 16 * i) (icoBuffer sizes payloads))
  = [byte.of_Z (size mod 256); byte.of_Z (size mod 256);
     Byte.x00; Byte.x00; Byte.x01; Byte.x00; Byte.x20; Byte.x00]
    ++ le32 (len pngData mod 2 ^ 32) ++ le32 (position mod 2 ^ 32) /\
  Ico.encode sizes payloads = Some (icoBuffer sizes payloads) /\
  (forall v rest, LittleEndian.Uint32 (le32 v ++ rest) = v mod 2 ^ 32).
Proof.
  intros Hlen Hs Hp position. split; [|split].
  - pose proof (layout_nth _ _ (6 + len sizes * 16) _ _ _ Hs Hp) as He.
    rewrite (icoBuffer_record _ _ _ _ He).
    unfold entryBytes.
    rewrite makeEntry_BytesInRes, makeEntry_ImageOffset.
    destruct (makeEntry_dimension_mod size pngData
                (uint32 (6 + len sizes * 16 + totalLen (firstn i payloads))))
      as [-> ->].
    rewrite !LittleEndian_le32.
    replace (6 + len sizes * 16 + totalLen (firstn i payloads)) with position
      by (unfold position; lia).
    unfold Ico.makeEntry. destruct (size =? 256); reflexivity.
  - exact (encode_rendered _ _ Hlen).
  - intros v rest. rewrite <- LittleEndian_le32. apply LittleEndian_Uint32_Write32.
Qed.

Lemma ico_record_constants_witness :
  firstn 16 (skipn (6 + 16 * 6)
               (icoBuffer Ico.IconSizes
                  [[Byte.x01]; [Byte.x02; Byte.x03]; []; []; []; [];
                   [Byte.x04; Byte.x05]]))
  = [Byte.x00; Byte.x00; Byte.x00; Byte.x00; Byte.x01; Byte.x00; Byte.x20; Byte.x00;
     Byte.x02; Byte.x00; Byte.x00; Byte.x00; Byte.x79; Byte.x00; Byte.x00; Byte.x00].
Proof.
  exact (proj1 (ico_record_constants Ico.IconSizes
                  [[Byte.x01]; [Byte.x02; Byte.x03]; []; []; []; [];
                   [Byte.x04; Byte.x05]]
                  6 256 [Byte.x04; Byte.x05] eq_refl eq_refl eq_refl)).
Defined.

(** ** Where the payloads lie in an ICO file *)

Lemma concat_nth_split (payloads : list (list byte)) : forall i pngData,
  nth_error payloads i = Some pngData ->
  concat payloads
  = concat (firstn i payloads) ++ pngData ++ concat (skipn (S i) payloads).
Proof.
  intros i pngData H.
  rewrite <- (firstn_skipn i payloads) at 1.
  rewrite (nth_error_skipn_cons _ _ _ H), concat_app. reflexivity.
Qed.

(** X4: payload [i] lies in the file, byte for byte, right after the 6-byte
    header, the 16*count bytes of directory and the payloads before it, for
    every list of payloads; entry [i] records this position and the payload's
    length modulo 2^32, so that, the file being shorter than 2^32 bytes, the
    entry's ImageOffset and BytesInRes delimit exactly the payload. *)
Theorem ico_payload_position (sizes : list Z) (payloads : list (list byte))
    (i : nat) (pngData : list byte) :
  List.length payloads = List.length sizes ->
  nth_error payloads i = Some pngData ->
  let position :=
    (6 + 16 * List.length sizes + List.length (concat (firstn i payloads)))%nat in
  firstn (List.length pngData) (skipn position (icoBuffer sizes payloads)) = pngData /\
  exists e,
    nth_error (layout sizes payloads (uint32 (6 + len sizes * 16))) i = Some e /\
    Ico.entriesOf sizes payloads
    = Some (layout sizes payloads (uint32 (6 + len sizes * 16))) /\
    Ico.ImageOffset e = Z.of_nat position mod 2 ^ 32 /\
    Ico.BytesInRes e = len pngData mod 2 ^ 32 /\
    (len (icoBuffer sizes payloads) < 2 ^ 32 ->
     firstn (Z.to_nat (Ico.BytesInRes e))
       (skipn (Z.to_nat (Ico.ImageOffset e)) (icoBuffer sizes payloads))
     = pngData).
Proof.
  intros Hlen Hp position.
  assert (Hpos : firstn (List.length pngData)
                   (skipn position (icoBuffer sizes payloads)) = pngData).
  { unfold position. rewrite Nat.add_comm, <- skipn_skipn.
    replace (6 + 16 * List.length sizes)%nat with (Z.to_nat (6 + 16 * len sizes))
      by (unfold len; lia).
    rewrite (skipn_icoBuffer _ _ Hlen), (concat_nth_split _ _ _ Hp).
    rewrite (skipn_exact _ _ _ eq_refl). now apply firstn_exact. }
  split; [exact Hpos|].
  destruct (nth_error_same_length _ sizes _ _ Hlen Hp) as [size Hs].
  pose proof (layout_nth _ _ (6 + len sizes * 16) _ _ _ Hs Hp) as He.
  eexists. split; [exact He|]. split; [exact (entriesOf_layout _ _ Hlen)|].
  rewrite makeEntry_ImageOffset, makeEntry_BytesInRes.
  assert (Hz : 6 + len sizes * 16 + totalLen (firstn i payloads) = Z.of_nat position).
  { unfold position. rewrite <- len_concat. unfold len. lia. }
  rewrite Hz. split; [reflexivity|]. split; [reflexivity|].
  intros Hbound. rewrite (len_icoBuffer _ _ Hlen) in Hbound.
  pose proof (totalLen_firstn_le i payloads) as Hle.
  pose proof (totalLen_firstn_S _ _ _ Hp) as HS.
  pose proof (totalLen_firstn_le (S i) payloads) as HleS.
  pose proof (len_nonneg pngData). pose proof (len_nonneg sizes).
  pose proof (totalLen_nonneg (firstn i payloads)).
  rewrite !uint32_small by lia.
  rewrite Nat2Z.id. unfold len. rewrite Nat2Z.id. exact Hpos.
Qed.

Lemma ico_payload_position_witness :
  firstn 2 (skipn (6 + 16 * 7 + 1)
              (icoBuffer Ico.IconSizes
                 [[Byte.x01]; [Byte.x02; Byte.x03]; []; []; []; []; [Byte.x04]]))
  = [Byte.x02; Byte.x03].
Proof.
  exact (proj1 (ico_payload_position Ico.IconSizes
                  [[Byte.x01]; [Byte.x02; Byte.x03]; []; []; []; []; [Byte.x04]]
                  1 [Byte.x02; Byte.x03] eq_refl eq_refl)).
Defined.

(** ** The metadata depends on the payload lengths only *)

Lemma layout_same_lengths sizes : forall payloads payloads' offset,
  map (@List.length byte) payloads = map (@List.length byte) payloads' ->
  layout sizes payloads offset = layout sizes payloads' offset.
Proof.
  induction sizes as [|s sizes IH]; intros [|p ps] [|p' ps'] offset H;
    try discriminate; try reflexivity.
  cbn [map] in H. injection H as Hp Hps. cbn [layout].
  assert (Hl : len p = len p') by (unfold len; now rewrite Hp).
  rewrite Hl, (IH _ _ _ Hps). f_equal.
  unfold Ico.makeEntry. now rewrite Hl.
Qed.

Lemma entriesFor_same_lengths types : forall payloads payloads',
  map (@List.length byte) payloads = map (@List.length byte) payloads' ->
  map Icns.IconEntry.Length (entriesFor types payloads)
  = map Icns.IconEntry.Length (entriesFor types payloads').
Proof.
  induction types as [|t types IH]; intros [|p ps] [|p' ps'] H;
    try discriminate; try reflexivity.
  cbn [map] in H. injection H as Hp Hps. cbn [entriesFor map].
  rewrite (IH _ _ Hps). f_equal.
  unfold Icns.makeEntry. cbn [Icns.IconEntry.Length]. unfold len. now rewrite Hp.
Qed.

Lemma sumLengths_map entries entries' :
  map Icns.IconEntry.Length entries = map Icns.IconEntry.Length entries' ->
  sumLengths entries = sumLengths entries'.
Proof.
  revert entries'; induction entries as [|e es IH]; intros [|e' es'] H;
    try discriminate; [reflexivity|].
  cbn [map] in H. injection H as He Hes.
  change (sumLengths (e :: es)) with (Icns.IconEntry.Length e + sumLengths es).
  change (sumLengths (e' :: es')) with (Icns.IconEntry.Length e' + sumLengths es').
  now rewrite He, (IH _ Hes).
Qed.

(** X5: the encoders never look into a payload: two lists of payloads with
    the same lengths give the same ICO header and directory (the first
    6 + 16*count bytes) and the same ICNS file header (the first 8 bytes)
    and entry length fields. *)
Theorem metadata_from_lengths (sizes : list Z) (types : list Icns.IconType.t)
    (payloads payloads' : list (list byte)) :
  map (@List.length byte) payloads = map (@List.length byte) payloads' ->
  Ico.entriesOf sizes payloads = Ico.entriesOf sizes payloads' /\
  (List.length payloads = List.length sizes ->
   firstn (6 + 16 * List.length sizes) (icoBuffer sizes payloads)
   = firstn (6 + 16 * List.length sizes) (icoBuffer sizes payloads')) /\
  firstn 8 (icnsBuffer types payloads) = firstn 8 (icnsBuffer types payloads') /\
  map Icns.IconEntry.Length (entriesFor types payloads)
  = map Icns.IconEntry.Length (entriesFor types payloads').
Proof.
  intros H.
  assert (Hcount : List.length payloads = List.length payloads').
  { apply (f_equal (@List.length nat)) in H. now rewrite !length_map in H. }
  split; [|split; [|split]].
  - unfold Ico.entriesOf.
    destruct (Nat.eq_dec (List.length payloads) (List.length sizes)) as [Hlen|Hne].
    + rewrite (directory_layout sizes [] payloads _ [] Hlen).
      rewrite (directory_layout sizes [] payloads' _ [] ltac:(lia)).
      now rewrite (layout_same_lengths _ _ _ _ H).
    + generalize (uint32 (6 + len sizes * 16)). generalize (@nil Ico.ICONDIREntry).
      generalize 0%nat.
      revert H. clear. intros H.
      induction sizes as [|s sizes IH]; intros i entries offset; [reflexivity|].
      cbn [Ico.directory].
      assert (Hnth : option_map (@List.length byte) (nth_error payloads i)
                     = option_map (@List.length byte) (nth_error payloads' i)).
      { rewrite <- !nth_error_map. now rewrite H. }
      destruct (nth_error payloads i) as [p|], (nth_error payloads' i) as [p'|];
        try discriminate Hnth; [|reflexivity].
      cbn [option_map] in Hnth. injection Hnth as Hp.
      assert (Hl : len p = len p') by (unfold len; now rewrite Hp).
      rewrite Hl. replace (Ico.makeEntry s p offset) with (Ico.makeEntry s p' offset)
        by (unfold Ico.makeEntry; now rewrite Hl).
      apply IH.
  - intros Hlen. unfold icoBuffer. rewrite !serialize_layout.
    rewrite <- (layout_same_lengths _ _ _ _ H).
    set (prefix := (le_split 2 0 ++ le_split 2 1 ++ le_split 2 (uint16 (len sizes)))).
    set (dir := concat (map entryBytes
                  (layout sizes payloads (uint32 (6 + len sizes * 16))))).
    assert (Hpre : List.length (prefix ++ dir) = (6 + 16 * List.length sizes)%nat).
    { unfold prefix, dir.
      rewrite !length_app, !length_le_split, length_directoryBytes.
      now rewrite (length_layout _ _ _ Hlen). }
    rewrite !(app_assoc prefix dir).
    now rewrite !(firstn_exact _ _ _ Hpre).
  - unfold icnsBuffer. rewrite !icns_serialize_layout.
    rewrite !totalSizeOf_mod.
    rewrite (sumLengths_map _ _ (entriesFor_same_lengths types _ _ H)).
    set (total := rev (le_split 4 _)).
    rewrite !(app_assoc (list_byte_of_string "icns") total).
    assert (Hpre : List.length (list_byte_of_string "icns" ++ total) = 8%nat).
    { unfold total. now rewrite length_app, length_rev, length_le_split. }
    now rewrite !(firstn_exact _ _ _ Hpre).
  - exact (entriesFor_same_lengths types _ _ H).
Qed.

Lemma metadata_from_lengths_witness :
  firstn 8 (icnsBuffer Icns.StandardIconTypes (repeat [Byte.x01; Byte.x02] 11))
  = firstn 8 (icnsBuffer Icns.StandardIconTypes (repeat [Byte.xff; Byte.x00] 11)).
Proof.
  exact (proj1 (proj2 (proj2 (metadata_from_lengths Ico.IconSizes
           Icns.StandardIconTypes (repeat [Byte.x01; Byte.x02] 11)
           (repeat [Byte.xff; Byte.x00] 11) eq_refl)))).
Defined.

(** ** The dimension bytes of any size *)

Lemma dimension_range v : 0 <= v < 256 -> 1 <= Reader.dimension v <= 256.
Proof.
  intros Hv. unfold Reader.dimension.
  destruct (v =? 0) eqn:E; [lia|]. apply Z.eqb_neq in E. lia.
Qed.

(** X6: for any size, not only those of the list, the width and height
    written are the size modulo 256 (for 256 the substituted 0 is that
    value too), so they are 0 exactly for the multiples of 256, and read
    under the 0-means-256 convention they give the size back exactly when
    1 <= size <= 256. *)
Theorem ico_dimension_any_size (size : Z) (pngData : list byte) (offset : Z) :
  let e := Ico.makeEntry size pngData offset in
  Ico.Width e = size mod 256 /\
  Ico.Height e = size mod 256 /\
  0 <= Ico.Width e < 256 /\
  (Ico.Width e = 0 <-> size mod 256 = 0) /\
  (Reader.dimension (Ico.Width e) = size <-> 1 <= size <= 256).
Proof.
  cbv zeta. destruct (makeEntry_dimension_mod size pngData offset) as [Hw Hh].
  rewrite Hh, Hw.
  pose proof (Z.mod_pos_bound size 256 ltac:(lia)) as Hmod.
  split; [reflexivity|]. split; [reflexivity|]. split; [exact Hmod|].
  split; [reflexivity|]. split.
  - intros H. rewrite <- H. now apply dimension_range.
  - intros Hs. destruct (dimension_makeEntry size pngData offset Hs) as [Hd _].
    now rewrite Hw in Hd.
Qed.

(** ** The header of an ICO file, for any size list *)

(** X7: for any size list, the file begins with 00 00 01 00 (reserved 0,
    type 1) and a little-endian count that is the number of sizes modulo
    2^16, which is the number of directory records whenever the list has
    fewer than 65536 sizes. *)
Theorem ico_header_any_sizes (sizes : list Z) (payloads : list (list byte)) :
  List.length payloads = List.length sizes ->
  exists entries,
    Ico.entriesOf sizes payloads = Some entries /\
    Ico.encode sizes payloads = Some (icoBuffer sizes payloads) /\
    firstn 4 (icoBuffer sizes payloads) = [Byte.x00; Byte.x00; Byte.x01; Byte.x00] /\
    LittleEndian.Uint16 (skipn 4 (icoBuffer sizes payloads)) = len sizes mod 2 ^ 16 /\
    (len sizes < 2 ^ 16 ->
     LittleEndian.Uint16 (skipn 4 (icoBuffer sizes payloads)) = len entries).
Proof.
  intros Hlen. eexists. split; [exact (entriesOf_layout _ _ Hlen)|].
  split; [exact (encode_rendered _ _ Hlen)|].
  assert (Hcount : LittleEndian.Uint16 (skipn 4 (icoBuffer sizes payloads))
                   = len sizes mod 2 ^ 16).
  { unfold icoBuffer. rewrite serialize_layout, <- !app_assoc.
    change (skipn 4 (le_split 2 0 ++ le_split 2 1 ++ ?r)) with r.
    rewrite LittleEndian_Uint16_Write16. unfold uint16. apply Z.mod_mod. lia. }
  split; [|split; [exact Hcount|]].
  - unfold icoBuffer. rewrite serialize_layout. reflexivity.
  - intros Hsmall. rewrite Hcount. unfold len at 2.
    rewrite (length_layout _ _ _ Hlen). apply Z.mod_small.
    pose proof (len_nonneg sizes). unfold len in *. lia.
Qed.

Lemma ico_header_any_sizes_witness :
  exists entries,
    Ico.entriesOf [16; 32] [[Byte.x01]; []] = Some entries /\
    Ico.encode [16; 32] [[Byte.x01]; []] = Some (icoBuffer [16; 32] [[Byte.x01]; []]) /\
    firstn 4 (icoBuffer [16; 32] [[Byte.x01]; []])
    = [Byte.x00; Byte.x00; Byte.x01; Byte.x00] /\
    LittleEndian.Uint16 (skipn 4 (icoBuffer [16; 32] [[Byte.x01]; []]))
    = len [16; 32] mod 2 ^ 16 /\
    (len [16; 32] < 2 ^ 16 ->
     LittleEndian.Uint16 (skipn 4 (icoBuffer [16; 32] [[Byte.x01]; []])) = len entries).
Proof. apply (ico_header_any_sizes [16; 32] [[Byte.x01]; []]). reflexivity. Defined.

(** ** Reading back the file of any table *)

(** X8: for any size list with fewer than 65536 sizes, each between 1 and
    256, and payloads that keep the file below 2^32 bytes, a reader of the
    ICO layout gets back from the buffer one image per size, with that size
    and that payload, in list order. *)
Theorem ico_round_trip_any_sizes (sizes : list Z) (payloads : list (list byte)) :
  List.length payloads = List.length sizes ->
  Forall (fun size => 1 <= size <= 256) sizes ->
  len sizes < 2 ^ 16 ->
  6 + 16 * len sizes + totalLen payloads < 2 ^ 32 ->
  exists buffer,
    Ico.encode sizes payloads = Some buffer /\
    Reader.readIco buffer = Some (imagesOf sizes payloads) /\
    List.length (imagesOf sizes payloads) = List.length sizes.
Proof.
  intros Hlen Hsizes Hcount Hbound. exists (icoBuffer sizes payloads).
  split; [exact (encode_rendered _ _ Hlen)|].
  split; [now apply readIco_no_wrap|].
  clear Hsizes Hcount Hbound. revert payloads Hlen.
  induction sizes as [|s sizes IH]; intros [|p payloads] Hlen; try discriminate;
    [reflexivity|].
  cbn [imagesOf List.length]. f_equal. apply IH. cbn in Hlen. lia.
Qed.

Lemma ico_round_trip_any_sizes_witness :
  exists buffer,
    Ico.encode [1; 200; 256] [[Byte.x01]; []; [Byte.x02; Byte.x03]] = Some buffer /\
    Reader.readIco buffer
    = Some (imagesOf [1; 200; 256] [[Byte.x01]; []; [Byte.x02; Byte.x03]]) /\
    List.length (imagesOf [1; 200; 256] [[Byte.x01]; []; [Byte.x02; Byte.x03]])
    = List.length [1; 200; 256].
Proof.
  apply (ico_round_trip_any_sizes [1; 200; 256]
           [[Byte.x01]; []; [Byte.x02; Byte.x03]]).
  - reflexivity.
  - repeat constructor; discriminate.
  - reflexivity.
  - reflexivity.
Defined.

Lemma padded_entriesFor types : forall payloads,
  map (fun e => (Icns.IconEntry.OSType e, Icns.IconEntry.Data e))
    (entriesFor types payloads)
  = paddedElementsOf types payloads.
Proof.
  induction types as [|t types IH]; intros [|p payloads]; try reflexivity.
  cbn [entriesFor paddedElementsOf map]. now rewrite IH.
Qed.

(** X9: for any table of icon types, whatever the length of their codes,
    the buffer CreateIcns builds, when below 2^32 bytes, reads back as one
    element per type, with the code cut or zero-filled to 4 bytes as [copy]
    left it and the payload that went in. *)
Theorem icns_round_trip_any_table {error : Type}
    (SvgToPng : string -> Z -> error + list byte) (svgPath : string)
    (types : list Icns.IconType.t) (entries : list Icns.IconEntry.t) :
  Icns.buildEntries SvgToPng svgPath types [] = inr entries ->
  icnsSize entries < 2 ^ 32 ->
  exists payloads,
    renderedTypes SvgToPng svgPath types payloads /\
    Reader.readIcns (Icns.serialize entries)
    = Some (paddedElementsOf types payloads) /\
    Forall (fun element => List.length (fst element) = 4%nat)
      (paddedElementsOf types payloads).
Proof.
  intros Hbuild Hbound.
  destruct (buildEntries_inr _ _ _ _ _ Hbuild) as (payloads & -> & Hr).
  cbn [app] in *. exists payloads. split; [exact Hr|]. split.
  - rewrite (readIcns_serialize _ (wellSized_entriesFor _ _ Hbound) Hbound).
    now rewrite padded_entriesFor.
  - clear. revert payloads.
    induction types as [|t types IH]; intros [|p payloads]; cbn [paddedElementsOf];
      constructor; [apply length_copy4 | apply IH].
Qed.

Lemma icns_round_trip_any_table_witness :
  exists payloads,
    renderedTypes sampleRaster "icon.svg" oddTable payloads /\
    Reader.readIcns
      (Icns.serialize
         (entriesFor oddTable
            (map (fun t => repeat Byte.x2a (Z.to_nat (Icns.IconType.Size t)))
               oddTable)))
    = Some (paddedElementsOf oddTable payloads) /\
    Forall (fun element => List.length (fst element) = 4%nat)
      (paddedElementsOf oddTable payloads).
Proof.
  apply (icns_round_trip_any_table sampleRaster "icon.svg" oddTable
           (entriesFor oddTable
              (map (fun t => repeat Byte.x2a (Z.to_nat (Icns.IconType.Size t)))
                 oddTable))).
  - reflexivity.
  - vm_compute. reflexivity.
Defined.

(** ** Where the elements lie in an ICNS file *)

Lemma length_elementBytes_makeEntry t p :
  List.length (elementBytes (Icns.makeEntry t p)) = (List.length p + 8)%nat.
Proof.
  pose proof (len_elementBytes_makeEntry t p) as H. unfold len in H. lia.
Qed.

Lemma skipn_elements types : forall payloads k,
  (k <= List.length types)%nat ->
  (k <= List.length payloads)%nat ->
  skipn (elementsLength (firstn k payloads))
    (concat (map elementBytes (entriesFor types payloads)))
  = concat (map elementBytes (entriesFor (skipn k types) (skipn k payloads))).
Proof.
  induction types as [|t types IH]; intros [|p payloads] [|k] Ht Hp;
    try reflexivity; try (cbn in Ht, Hp; lia).
  cbn [firstn elementsLength entriesFor map concat skipn].
  rewrite <- (length_elementBytes_makeEntry t p).
  rewrite Nat.add_comm, <- skipn_skipn, (skipn_exact _ _ _ eq_refl).
  apply IH; cbn in Ht, Hp; lia.
Qed.

(** X10: in the file of any table and any payloads, element [k] begins
    8 bytes of file header and the earlier elements (8 bytes and a payload
    each) into the file: there stand its 4-byte type code, its length
    (payload length + 8, modulo 2^32) as 4 big-endian bytes, and its
    payload, byte for byte. *)
Theorem icns_element_position (types : list Icns.IconType.t)
    (payloads : list (list byte)) (k : nat)
    (iconType : Icns.IconType.t) (pngData : list byte) :
  nth_error types k = Some iconType ->
  nth_error payloads k = Some pngData ->
  let element :=
    skipn (8 + elementsLength (firstn k payloads)) (icnsBuffer types payloads) in
  firstn 4 element = copy4 (Icns.IconType.OSType iconType) /\
  BigEndian.Uint32 (skipn 4 element) = (len pngData + 8) mod 2 ^ 32 /\
  firstn (List.length pngData) (skipn 8 element) = pngData.
Proof.
  intros Ht Hp element.
  assert (Hk : (k < List.length types)%nat) by (apply nth_error_Some; congruence).
  assert (Hk' : (k < List.length payloads)%nat) by (apply nth_error_Some; congruence).
  assert (He : exists rest,
             element = copy4 (Icns.IconType.OSType iconType)
                       ++ rev (le_split 4 (uint32 (len pngData + 8)))
                       ++ pngData ++ rest).
  { unfold element, icnsBuffer. rewrite icns_serialize_layout.
    rewrite Nat.add_comm, <- skipn_skipn.
    rewrite app_assoc, (skipn_exact _ _ 8)
      by (now rewrite length_app, length_rev, length_le_split).
    rewrite (skipn_elements types payloads k) by lia.
    rewrite (nth_error_skipn_cons _ _ _ Ht), (nth_error_skipn_cons _ _ _ Hp).
    cbn [entriesFor map concat]. eexists.
    unfold elementBytes at 1, Icns.makeEntry.
    cbn [Icns.IconEntry.OSType Icns.IconEntry.Length Icns.IconEntry.Data].
    now rewrite <- !app_assoc. }
  destruct He as [rest ->]. split; [|split].
  - exact (firstn_exact _ _ 4 (length_copy4 _)).
  - rewrite (skipn_exact _ _ 4 (length_copy4 _)), BigEndian_Uint32_Write32.
    unfold uint32. apply Z.mod_mod. lia.
  - rewrite app_assoc, (skipn_exact _ _ 8)
      by (now rewrite length_app, length_copy4, length_rev, length_le_split).
    now apply firstn_exact.
Qed.

Lemma icns_element_position_witness :
  firstn 4 (skipn (8 + elementsLength (firstn 1 [[Byte.x01]; [Byte.x02; Byte.x03]]))
              (icnsBuffer Icns.StandardIconTypes [[Byte.x01]; [Byte.x02; Byte.x03]]))
  = copy4 "icp5".
Proof.
  exact (proj1 (icns_element_position Icns.StandardIconTypes
                  [[Byte.x01]; [Byte.x02; Byte.x03]] 1
                  (Icns.iconType "icp5" 32) [Byte.x02; Byte.x03] eq_refl eq_refl)).
Defined.
